(** * Pinned-message test helpers and the member-list view-model factory

    A shallow embedding of the [Helpers] class of the pinned-messages
    end-to-end tests and of the [useMemberListViewModelFactory] hook.

    The helpers are asynchronous methods that talk to three collaborators:
    the browser-automation page, the application page object (with its
    Matrix client) and the bot client.  The collaborators are opaque: an
    [Env] gives, for every call a helper can make, whether the call is
    fulfilled or rejected and the world it leaves behind.  A helper is a
    computation that starts in a world and yields its result (fulfilled or
    rejected), the world it ends in and the events it produced. *)

From Stdlib Require Import List String Ascii Bool Arith NArith Lia DecimalString DecimalN.
Import ListNotations.
Local Open Scope string_scope.
Local Open Scope list_scope.

Set Implicit Arguments.

(** ** Values *)

(** What a rejected promise carries.  [TypeError] is what the JavaScript
    engine raises when a property of [undefined] or [null] is read;
    [FrameworkError] stands for everything the automation library, the test
    framework or a client raises. *)
Inductive Error : Type :=
| TypeError (msg : string)
| FrameworkError (msg : string).

Inductive Result (A : Type) : Type :=
| Ok (a : A)
| Throw (e : Error).
Arguments Ok {A} a.
Arguments Throw {A} e.

(** A room as the page sees it: the two properties the helpers read. *)
Record Room : Type := { name : string; roomId : string }.

(** The content object literal [{ body, msgtype }] given to [sendMessage]. *)
Record Content : Type := { body : string; msgtype : string }.

(** The two [Client]s a [Helpers] instance holds: [this.app.client] and
    [this.bot]. *)
Inductive Client : Type := AppClient | BotClient.

(** The parameter type [string | { name: string }].  The object form is any
    object with a [name] property; its other properties are kept as they
    are. *)
Record NamedObject : Type :=
  { obj_name : string; obj_others : list (string * string) }.

Inductive RoomArg : Type :=
| RoomString (s : string)
| RoomObject (o : NamedObject).

(** [Number.MAX_SAFE_INTEGER]: up to it every non-negative integer is a
    double of its own, and a template literal prints it digit by digit. *)
Definition MAX_SAFE_INTEGER : N := 2 ^ 53 - 1.

(** The [number] a count is: a non-negative integer up to
    [Number.MAX_SAFE_INTEGER].  Other numbers (fractions, negatives, the
    doubles beyond, which print rounded) are no counts and are left out. *)
Record SafeInteger : Type :=
  { safe_value : N;
    safe_bound : (safe_value <=? MAX_SAFE_INTEGER)%N = true }.

(** Locators are lazy descriptions of elements; building one calls nothing.
    [ThePage] is [this.page], the scope of [page.locator] and
    [page.getByRole]. *)
Inductive Locator : Type :=
| ThePage
| Locate (scope : Locator) (selector : string) (hasText : option string)
| GetByRole (scope : Locator) (role : string) (accessibleName : option string)
| GetByText (scope : Locator) (text : string)
| GetByTestId (scope : Locator) (testId : string)
| Nth (l : Locator) (index : nat)
| Filter (l : Locator) (hasText : string).

Inductive MouseButton : Type := LeftButton | RightButton.

(** ** Calls on the collaborators *)

Inductive Call : Type :=
| EvaluateHandle (roomName : string)
    (* this.app.client.evaluateHandle(pageFunction, roomName) *)
| HandleEvaluate (handle : option Room)
    (* room.evaluate(pageFunction) on the handle found *)
| SendMessage (cli : Client) (room_id : string) (content : Content)
| WaitForTimeout (ms : N)
| ViewRoomByName (roomName : string)
| Click (l : Locator) (button : MouseButton)
| ExpectToHaveText (l : Locator) (expected : string)
| ExpectToMatchScreenshot (l : Locator) (file : string)
| ExpectToHaveCount (l : Locator) (count : N)
| ExpectToBeVisible (l : Locator).

(** What an observer of the helper sees: a call is started, and later its
    promise is fulfilled or rejected. *)
Inductive Event : Type :=
| Invoke (c : Call)
| Fulfil (c : Call)
| Reject (c : Call) (e : Error).

(** The collaborators.  [client_getRooms] is what [cli.getRooms()] returns
    inside the page function run by [evaluateHandle] (or the error of that
    round trip); [perform] is the outcome of any call. *)
Record Env : Type :=
  { World : Type;
    client_getRooms : World -> Result (list Room) * World;
    perform : Call -> World -> Result unit * World }.

(** ** The monad of asynchronous helpers *)

Section Helpers.

Variable env : Env.

Definition M (A : Type) : Type :=
  World env -> Result A * World env * list Event.

Definition ret {A} (a : A) : M A := fun w => (Ok a, w, []).

Definition bind {A B} (m : M A) (f : A -> M B) : M B :=
  fun w =>
    match m w with
    | (Ok a, w1, t1) =>
        match f a w1 with
        | (r, w2, t2) => (r, w2, t1 ++ t2)
        end
    | (Throw e, w1, t1) => (Throw e, w1, t1)
    end.

Notation "x <- m ;; k" := (bind m (fun x => k))
  (at level 61, m at next level, right associativity).
Notation "m ;;; k" := (bind m (fun _ => k))
  (at level 61, right associativity).

(** [await] of a call: the call is started, the helper is suspended until
    its promise settles, and a rejection is rethrown. *)
Definition await {A} (c : Call) (run : World env -> Result A * World env) : M A :=
  fun w =>
    match run w with
    | (Ok a, w1) => (Ok a, w1, [Invoke c; Fulfil c])
    | (Throw e, w1) => (Throw e, w1, [Invoke c; Reject c e])
    end.

Definition call (c : Call) : M unit := await c (perform env c).

(** [for (const x of xs) { await body(x) }] *)
Fixpoint for_of {A} (xs : list A) (body : A -> M unit) : M unit :=
  match xs with
  | [] => ret tt
  | x :: rest => body x ;;; for_of rest body
  end.

Definition result_of {A} (x : Result A * World env * list Event) : Result A :=
  fst (fst x).
Definition world_of {A} (x : Result A * World env * list Event) : World env :=
  snd (fst x).
Definition trace_of {A} (x : Result A * World env * list Event) : list Event :=
  snd x.

(** ** The helpers *)

(** [typeof room === "string" ? room : room.name] *)
Definition roomNameOf (room : RoomArg) : string :=
  match room with
  | RoomString s => s
  | RoomObject o => obj_name o
  end.

(** The page function of [findRoomByName]:
    [cli.getRooms().find((r) => r.name === roomName)]. *)
Definition findPageFunction (roomName : string) (rooms : list Room) : option Room :=
  find (fun r => String.eqb (name r) roomName) rooms.

Definition findRoomByName (roomName : string) : M (option Room) :=
  await (EvaluateHandle roomName)
        (fun w =>
           match client_getRooms env w with
           | (Ok rooms, w1) => (Ok (findPageFunction roomName rooms), w1)
           | (Throw e, w1) => (Throw e, w1)
           end).

(** The page function [(room) => room.roomId]: reading a property of
    [undefined] raises. *)
Definition roomIdPageFunction (handle : option Room) : Result string :=
  match handle with
  | Some r => Ok (roomId r)
  | None => Throw (TypeError "Cannot read properties of undefined (reading 'roomId')")
  end.

Definition evaluateRoomId (handle : option Room) : M string :=
  await (HandleEvaluate handle)
        (fun w =>
           match perform env (HandleEvaluate handle) w with
           | (Ok _, w1) => (roomIdPageFunction handle, w1)
           | (Throw e, w1) => (Throw e, w1)
           end).

Definition sendMessageAsClient (cli : Client) (roomName : RoomArg)
    (messages : list string) : M unit :=
  room <- findRoomByName (roomNameOf roomName) ;;
  room_id <- evaluateRoomId room ;;
  for_of messages (fun message =>
    call (SendMessage cli room_id {| body := message; msgtype := "m.text" |}) ;;;
    call (WaitForTimeout 100)).

Definition receiveMessages (room : RoomArg) (messages : list string) : M unit :=
  sendMessageAsClient BotClient room messages.

Definition goTo (room : RoomArg) : M unit :=
  call (ViewRoomByName (roomNameOf room)).

Definition pinMessage (message : string) : M unit :=
  let timelineMessage := Locate ThePage ".mx_MTextBody" (Some message) in
  call (Click timelineMessage RightButton) ;;;
  call (Click (GetByRole ThePage "menuitem" (Some "Pin")) LeftButton).

Definition pinMessages (messages : list string) : M unit :=
  for_of messages pinMessage.

Definition openRoomInfo : M unit :=
  call (Click (Nth (GetByRole ThePage "button" (Some "Room info")) 1) LeftButton).

(** [`${n}`] for a non-negative integer that is a double of its own (an
    array length, the value of a [SafeInteger]): its decimal digits. *)
Definition numberToString (n : N) : string :=
  NilEmpty.string_of_uint (N.to_uint n).

Definition assertPinnedCountInRoomInfo (count : SafeInteger) : M unit :=
  call (ExpectToHaveText (GetByRole ThePage "menuitem" (Some "Pinned messages"))
                         ("Pinned messages" ++ numberToString (safe_value count))).

Definition openPinnedMessagesList : M unit :=
  call (Click (GetByRole ThePage "menuitem" (Some "Pinned messages")) LeftButton).

Definition getRightPanel : Locator := Locate ThePage "#mx_RightPanel" None.

Definition assertPinnedMessagesList (messages : list string) : M unit :=
  let rightPanel := getRightPanel in
  let len := N.of_nat (List.length messages) in
  call (ExpectToHaveText (GetByRole rightPanel "heading" (Some "Pinned messages"))
                         (numberToString len ++ " Pinned messages")) ;;;
  call (ExpectToMatchScreenshot rightPanel
          ("pinned-messages-list-messages-" ++ numberToString len ++ ".png")) ;;;
  let list := GetByRole rightPanel "list" None in
  call (ExpectToHaveCount (GetByRole list "listitem" None) len) ;;;
  for_of messages (fun message => call (ExpectToBeVisible (GetByText list message))).

Definition assertEmptyPinnedMessagesList : M unit :=
  let rightPanel := getRightPanel in
  call (ExpectToMatchScreenshot rightPanel "pinned-messages-list-empty.png").

Definition openUnpinAllDialog : M unit :=
  openRoomInfo ;;;
  openPinnedMessagesList ;;;
  call (Click (GetByRole ThePage "button" (Some "Unpin all")) LeftButton).

Definition getUnpinAllDialog : Locator :=
  Locate ThePage ".mx_Dialog" (Some "Unpin all messages?").

Definition confirmUnpinAllDialog : M unit :=
  call (Click (GetByRole getUnpinAllDialog "button" (Some "Continue")) LeftButton).

Definition backPinnedMessagesList : M unit :=
  call (Click (GetByTestId (Locate ThePage "#mx_RightPanel" None) "base-card-back-button") LeftButton).

Definition unpinMessageFromMessageList (message : string) : M unit :=
  let item :=
    Filter (GetByRole (GetByRole getRightPanel "list" None) "listitem" None)
           message in
  call (Click (GetByRole item "button" None) LeftButton) ;;;
  call (Click (GetByRole (GetByRole ThePage "menu" (Some "Open menu"))
                         "menuitem" (Some "Unpin")) LeftButton).

End Helpers.

Arguments ret {env A} a.
Arguments bind {env A B} m f.
Arguments await {env A} c run.
Arguments for_of {env A} xs body.
Arguments result_of {env A} x.
Arguments world_of {env A} x.
Arguments trace_of {env A} x.

(** ** Reading a trace *)

(** The calls a trace starts, in the order they were started. *)
Fixpoint calls (tr : list Event) : list Call :=
  match tr with
  | [] => []
  | Invoke c :: rest => c :: calls rest
  | _ :: rest => calls rest
  end.

(** The trace of calls that were each awaited to fulfilment. *)
Definition settled (cs : list Call) : list Event :=
  flat_map (fun c => [Invoke c; Fulfil c]) cs.

(** One call at a time: a started call settles before anything else is
    started, and nothing is started after a rejection. *)
Fixpoint sequential (tr : list Event) : Prop :=
  match tr with
  | [] => True
  | Invoke c :: rest =>
      match rest with
      | Fulfil c' :: rest' => c' = c /\ sequential rest'
      | [Reject c' _] => c' = c
      | _ => False
      end
  | _ => False
  end.

(** How a run of a helper ends: every call fulfilled, or a run of fulfilled
    calls followed by the rejected one, whose error is the helper's. *)
Inductive outcome {A : Type} : Result A -> list Event -> Prop :=
| outcome_ok (a : A) (cs : list Call) :
    outcome (Ok a) (settled cs)
| outcome_throw (e : Error) (cs : list Call) (c : Call) :
    outcome (Throw e) (settled cs ++ [Invoke c; Reject c e]).

Definition disciplined {env A} (m : M env A) : Prop :=
  forall w, outcome (result_of (m w)) (trace_of (m w)).

Definition prefix {A} (l full : list A) : Prop := exists rest, l ++ rest = full.

Definition is_send (c : Call) : bool :=
  match c with SendMessage _ _ _ => true | _ => false end.
Definition is_wait (c : Call) : bool :=
  match c with WaitForTimeout _ => true | _ => false end.
Definition is_click (c : Call) : bool :=
  match c with Click _ _ => true | _ => false end.
Definition is_lookup (c : Call) : bool :=
  match c with EvaluateHandle _ | HandleEvaluate _ => true | _ => false end.

(** Calls that act on the application: input and navigation.  Waiting and
    expecting only watch. *)
Definition is_action (c : Call) : bool :=
  match c with
  | SendMessage _ _ _ | ViewRoomByName _ | Click _ _ => true
  | _ => false
  end.

(** The bodies of the messages sent, in the order of the calls. *)
Fixpoint sent_bodies (cs : list Call) : list string :=
  match cs with
  | [] => []
  | SendMessage _ _ content :: rest => body content :: sent_bodies rest
  | _ :: rest => sent_bodies rest
  end.

(** ** Straight-line scripts *)

Definition perform_all {env} (cs : list Call) : M env unit :=
  for_of cs (call env).

Definition textMessage (message : string) : Content :=
  {| body := message; msgtype := "m.text" |}.

Definition sendScript (cli : Client) (room_id : string) (messages : list string)
    : list Call :=
  flat_map (fun message =>
              [SendMessage cli room_id (textMessage message); WaitForTimeout 100])
           messages.

Definition pinScript (messages : list string) : list Call :=
  flat_map (fun message =>
              [Click (Locate ThePage ".mx_MTextBody" (Some message)) RightButton;
               Click (GetByRole ThePage "menuitem" (Some "Pin")) LeftButton])
           messages.

Definition headingCheck (messages : list string) : Call :=
  ExpectToHaveText (GetByRole getRightPanel "heading" (Some "Pinned messages"))
    (numberToString (N.of_nat (List.length messages)) ++ " Pinned messages").

Definition screenshotCheck (messages : list string) : Call :=
  ExpectToMatchScreenshot getRightPanel
    ("pinned-messages-list-messages-"
       ++ numberToString (N.of_nat (List.length messages)) ++ ".png").

Definition countCheck (messages : list string) : Call :=
  ExpectToHaveCount
    (GetByRole (GetByRole getRightPanel "list" None) "listitem" None)
    (N.of_nat (List.length messages)).

Definition visibleCheck (message : string) : Call :=
  ExpectToBeVisible (GetByText (GetByRole getRightPanel "list" None) message).

(** The assertions of [assertPinnedMessagesList], in the order it makes them. *)
Definition assertListScript (messages : list string) : list Call :=
  headingCheck messages :: screenshotCheck messages :: countCheck messages
    :: map visibleCheck messages.

(** The three assertions the specification names: heading, count, visibility. *)
Definition specifiedListChecks (messages : list string) : list Call :=
  headingCheck messages :: countCheck messages :: map visibleCheck messages.

(** The checks of a script hold, each in the world its predecessors left. *)
Fixpoint checks_hold (env : Env) (w : World env) (cs : list Call) : Prop :=
  match cs with
  | [] => True
  | c :: rest =>
      fst (perform env c w) = Ok tt /\ checks_hold env (snd (perform env c w)) rest
  end.

(** ** The public operations of [Helpers] *)

Inductive Operation : Type :=
| OpReceiveMessages (room : RoomArg) (messages : list string)
| OpGoTo (room : RoomArg)
| OpPinMessage (message : string)
| OpPinMessages (messages : list string)
| OpOpenRoomInfo
| OpAssertPinnedCountInRoomInfo (count : SafeInteger)
| OpOpenPinnedMessagesList
| OpAssertPinnedMessagesList (messages : list string)
| OpAssertEmptyPinnedMessagesList
| OpOpenUnpinAllDialog
| OpConfirmUnpinAllDialog
| OpBackPinnedMessagesList
| OpUnpinMessageFromMessageList (message : string).

Definition run_operation (env : Env) (op : Operation) : M env unit :=
  match op with
  | OpReceiveMessages room messages => receiveMessages env room messages
  | OpGoTo room => goTo env room
  | OpPinMessage message => pinMessage env message
  | OpPinMessages messages => pinMessages env messages
  | OpOpenRoomInfo => openRoomInfo env
  | OpAssertPinnedCountInRoomInfo count => assertPinnedCountInRoomInfo env count
  | OpOpenPinnedMessagesList => openPinnedMessagesList env
  | OpAssertPinnedMessagesList messages => assertPinnedMessagesList env messages
  | OpAssertEmptyPinnedMessagesList => assertEmptyPinnedMessagesList env
  | OpOpenUnpinAllDialog => openUnpinAllDialog env
  | OpConfirmUnpinAllDialog => confirmUnpinAllDialog env
  | OpBackPinnedMessagesList => backPinnedMessagesList env
  | OpUnpinMessageFromMessageList message => unpinMessageFromMessageList env message
  end.

(** ** Concrete collaborators

    A world that records the calls it received, a fixed list of rooms, and a
    table of the calls that are rejected. *)
Definition scriptedEnv (rooms : list Room) (failing : Call -> option Error) : Env :=
  {| World := list Call;
     client_getRooms := fun w => (Ok rooms, w);
     perform := fun c w =>
       (match failing c with Some e => Throw e | None => Ok tt end, w ++ [c]) |}.

Definition neverFails (c : Call) : option Error := None.

Definition screenshotMismatch (c : Call) : option Error :=
  match c with
  | ExpectToMatchScreenshot _ _ => Some (FrameworkError "Screenshot comparison failed")
  | _ => None
  end.

Definition secondSendFails (c : Call) : option Error :=
  match c with
  | SendMessage _ _ content =>
      if String.eqb (body content) "Msg2" then Some (FrameworkError "M_LIMIT_EXCEEDED")
      else None
  | _ => None
  end.

Definition demoRooms : list Room :=
  [ {| name := "Room 10"; roomId := "!ten:localhost" |};
    {| name := "Room 1"; roomId := "!one:localhost" |};
    {| name := "Room 1"; roomId := "!other:localhost" |} ].

(** ** What the claims speak of *)

(** Between two sends with no send in between lies exactly one wait of
    100 ms. *)
Definition consecutive_sends_spaced (cs : list Call) : Prop :=
  forall before a between b after,
    cs = before ++ a :: between ++ b :: after ->
    is_send a = true -> is_send b = true ->
    (forall c, In c between -> is_send c = false) ->
    between = [WaitForTimeout 100].

Definition lookup_send_or_wait (c : Call) : Prop :=
  is_lookup c = true \/ is_send c = true \/ c = WaitForTimeout 100.

(** The calls each operation makes when nothing is rejected.  For
    [receiveMessages] they depend on the handle and the room id the lookup
    gave. *)
Definition operation_script (op : Operation) (handle : option Room) (rid : string)
    : list Call :=
  match op with
  | OpReceiveMessages room messages =>
      EvaluateHandle (roomNameOf room) :: HandleEvaluate handle
        :: sendScript BotClient rid messages
  | OpGoTo room => [ViewRoomByName (roomNameOf room)]
  | OpPinMessage message => pinScript [message]
  | OpPinMessages messages => pinScript messages
  | OpOpenRoomInfo =>
      [Click (Nth (GetByRole ThePage "button" (Some "Room info")) 1) LeftButton]
  | OpAssertPinnedCountInRoomInfo count =>
      [ExpectToHaveText (GetByRole ThePage "menuitem" (Some "Pinned messages"))
                        ("Pinned messages" ++ numberToString (safe_value count))]
  | OpOpenPinnedMessagesList =>
      [Click (GetByRole ThePage "menuitem" (Some "Pinned messages")) LeftButton]
  | OpAssertPinnedMessagesList messages => assertListScript messages
  | OpAssertEmptyPinnedMessagesList =>
      [ExpectToMatchScreenshot getRightPanel "pinned-messages-list-empty.png"]
  | OpOpenUnpinAllDialog =>
      [Click (Nth (GetByRole ThePage "button" (Some "Room info")) 1) LeftButton;
       Click (GetByRole ThePage "menuitem" (Some "Pinned messages")) LeftButton;
       Click (GetByRole ThePage "button" (Some "Unpin all")) LeftButton]
  | OpConfirmUnpinAllDialog =>
      [Click (GetByRole getUnpinAllDialog "button" (Some "Continue")) LeftButton]
  | OpBackPinnedMessagesList =>
      [Click (GetByTestId (Locate ThePage "#mx_RightPanel" None) "base-card-back-button")
             LeftButton]
  | OpUnpinMessageFromMessageList message =>
      [Click (GetByRole
                (Filter (GetByRole (GetByRole getRightPanel "list" None) "listitem" None)
                        message)
                "button" None) LeftButton;
       Click (GetByRole (GetByRole ThePage "menu" (Some "Open menu"))
                        "menuitem" (Some "Unpin")) LeftButton]
  end.

(** The specification's sentence on [assertPinnedMessagesList]: it succeeds
    exactly when the three assertions it names hold. *)
Definition succeeds_iff_specified_checks (env : Env) (messages : list string)
    (w : World env) : Prop :=
  result_of (assertPinnedMessagesList env messages w) = Ok tt
  <-> checks_hold env w (specifiedListChecks messages).


(** The specification's sentence on what [receiveMessages] sends: every
    message of the list is passed to the bot's [sendMessage] as a text
    content. *)
Definition every_message_is_sent (env : Env) (room : RoomArg)
    (messages : list string) (w : World env) : Prop :=
  forall m, In m messages ->
    exists rid,
      In (SendMessage BotClient rid {| body := m; msgtype := "m.text" |})
         (calls (trace_of (receiveMessages env room messages w))).

(** A call that only reads: it leaves every world as it found it. *)
Definition read_only (env : Env) (c : Call) : Prop :=
  forall w, snd (perform env c w) = w.

(** Collaborators whose expectations only read: the world records the other
    calls. *)
Definition watchingEnv : Env :=
  {| World := list Call;
     client_getRooms := fun w => (Ok [], w);
     perform := fun c w =>
       (Ok tt, match c with
               | ExpectToHaveText _ _ | ExpectToMatchScreenshot _ _
               | ExpectToHaveCount _ _ | ExpectToBeVisible _ => w
               | _ => w ++ [c]
               end) |}.

(** Counts for the examples. *)
Definition count_of_3 : SafeInteger := {| safe_value := 3; safe_bound := eq_refl |}.
Definition count_of_1 : SafeInteger := {| safe_value := 1; safe_bound := eq_refl |}.
Definition count_of_10 : SafeInteger := {| safe_value := 10; safe_bound := eq_refl |}.

(** ** Worlds and clicks of scripts *)

(** The world a run of calls leaves, each call made where the one before
    left off. *)
Definition world_after (env : Env) (w : World env) (cs : list Call) : World env :=
  fold_left (fun w1 c => snd (perform env c w1)) cs w.

(** The two clicks of [pinMessage]. *)
Definition contextClick (message : string) : Call :=
  Click (Locate ThePage ".mx_MTextBody" (Some message)) RightButton.

Definition pinItemClick : Call :=
  Click (GetByRole ThePage "menuitem" (Some "Pin")) LeftButton.

(** The error of [(room) => room.roomId] on a handle of [undefined]. *)
Definition missing_room_error : Error :=
  TypeError "Cannot read properties of undefined (reading 'roomId')".

(** Collaborators for which opening the pinned-messages list is rejected. *)
Definition pinnedListClickFails (c : Call) : option Error :=
  match c with
  | Click (GetByRole ThePage "menuitem" (Some "Pinned messages")) LeftButton =>
      Some (FrameworkError "Timeout 30000ms exceeded")
  | _ => None
  end.

(** ** The member-list view-model factory *)

Module MemberList.

(** [RoomStateEvent] names; the factory subscribes to [Update]. *)
Inductive RoomStateEvent : Type := Update | Events | Members | NewMember.

(** [new MemberService(roomId, cli, store)] *)
Record MemberService (C S : Type) : Type :=
  { service_roomId : string;
    service_client : C;
    service_store : S }.

(** What the hook takes from its surroundings: the Matrix client of the
    context with its rooms, the SDK context's member-list store, and the
    functions and hooks it imports.  [canInviteTo], [Room.isSpaceRoom],
    [useEventEmitterState] and [useMemberListViewModel] live in other files
    of the application and are parameters here, typed as they are used: the
    first two read a room that is there; [useEventEmitterState] gets an
    optional emitter, an event name and a mapper and yields the state;
    [useMemberListViewModel] gets the three arguments and yields the view
    model. *)
Record Context : Type :=
  { MatrixClient : Type;
    MatrixRoom : Type;
    MemberListStore : Type;
    IMemberListViewModel : Type;
    useMatrixClientContext : MatrixClient;
    memberListStore : MemberListStore;
    getRoom : MatrixClient -> string -> option MatrixRoom;
    isSpaceRoom : MatrixRoom -> bool;
    canInviteToRoom : MatrixRoom -> bool;
    useEventEmitterState :
      option MatrixRoom -> RoomStateEvent -> (unit -> Result bool) -> Result bool;
    useMemberListViewModel :
      bool -> bool -> MemberService MatrixClient MemberListStore -> IMemberListViewModel }.

Definition dereference_error : Error :=
  TypeError "Cannot read properties of null".

(** [canInviteTo(room)] reads the room it is given: on [null] it raises. *)
Definition canInviteTo (ctx : Context) (room : option (MatrixRoom ctx)) : Result bool :=
  match room with
  | Some r => Ok (canInviteToRoom ctx r)
  | None => Throw dereference_error
  end.

(** [room.isSpaceRoom()], the plain member call. *)
Definition call_isSpaceRoom (ctx : Context) (room : option (MatrixRoom ctx)) : Result bool :=
  match room with
  | Some r => Ok (isSpaceRoom ctx r)
  | None => Throw dereference_error
  end.

(** [room?.isSpaceRoom()]: [undefined] on a nullish receiver, without the call. *)
Definition optional_isSpaceRoom (ctx : Context) (room : option (MatrixRoom ctx))
    : Result (option bool) :=
  match room with
  | Some r => match call_isSpaceRoom ctx (Some r) with
              | Ok b => Ok (Some b)
              | Throw e => Throw e
              end
  | None => Ok None
  end.

(** [x ?? d] *)
Definition nullish {A} (x : option A) (d : A) : A :=
  match x with Some a => a | None => d end.

(** [!!room]: an object is truthy, [null] is not. *)
Definition truthy {A} (x : option A) : bool :=
  match x with Some _ => true | None => false end.

(** [a && b] on booleans: [b] is evaluated only when [a] is true.  The second
    operand is a thunk. *)
Definition and_then (a : bool) (b : unit -> Result bool) : Result bool :=
  if a then b tt else Ok false.

(** [room || undefined] *)
Definition or_undefined {A} (x : option A) : option A :=
  match x with Some a => Some a | None => None end.

(** The mapper given to [useEventEmitterState]:
    [() => !!room && canInviteTo(room)]. *)
Definition canInviteMapper (ctx : Context) (room : option (MatrixRoom ctx))
    : unit -> Result bool :=
  fun _ => and_then (truthy room) (fun _ => canInviteTo ctx room).

(** [useMemo(() => new MemberService(roomId, cli, store), deps)]: the value
    of the callback. *)
Definition newMemberService (ctx : Context) (roomId : string)
    : MemberService (MatrixClient ctx) (MemberListStore ctx) :=
  {| service_roomId := roomId;
     service_client := useMatrixClientContext ctx;
     service_store := memberListStore ctx |}.

(** The hook: the view model, or the error raised on the way. *)
Definition useMemberListViewModelFactory (ctx : Context) (roomId : string)
    : Result (IMemberListViewModel ctx) :=
  let cli := useMatrixClientContext ctx in
  let room := getRoom ctx cli roomId in
  match useEventEmitterState ctx (or_undefined room) Update (canInviteMapper ctx room) with
  | Throw e => Throw e
  | Ok canInviteToState =>
      let memberService := newMemberService ctx roomId in
      match optional_isSpaceRoom ctx room with
      | Throw e => Throw e
      | Ok isSpace =>
          Ok (useMemberListViewModel ctx canInviteToState (nullish isSpace false)
                                     memberService)
      end
  end.

(** The property of [useEventEmitterState] the factory relies on: the state
    it yields is the value of its mapper. *)
Definition state_is_mapped (ctx : Context) : Prop :=
  forall emitter event (fn : unit -> Result bool),
    useEventEmitterState ctx emitter event fn = fn tt.

(** A context whose client knows one room, a space in which everybody may
    invite; the view model is the triple it is built from. *)
Definition oneRoomContext : Context :=
  {| MatrixClient := unit;
     MatrixRoom := unit;
     MemberListStore := unit;
     IMemberListViewModel := bool * bool * MemberService unit unit;
     useMatrixClientContext := tt;
     memberListStore := tt;
     getRoom := fun _ roomId =>
       if String.eqb roomId "!space:localhost" then Some tt else None;
     isSpaceRoom := fun _ => true;
     canInviteToRoom := fun _ => true;
     useEventEmitterState := fun _ _ fn => fn tt;
     useMemberListViewModel := fun canInvite isSpace service =>
       (canInvite, isSpace, service) |}.

End MemberList.

(** * Properties *)

(** ** Lists and traces *)

Lemma settled_app (a b : list Call) : settled (a ++ b) = settled a ++ settled b.
Proof. unfold settled. apply flat_map_app. Qed.

Lemma calls_app (a b : list Event) : calls (a ++ b) = calls a ++ calls b.
Proof.
  induction a as [|ev a IH]; simpl; [reflexivity|].
  destruct ev; simpl; rewrite IH; reflexivity.
Qed.

Lemma calls_settled (cs : list Call) : calls (settled cs) = cs.
Proof. induction cs as [|c cs IH]; simpl; [reflexivity | now rewrite IH]. Qed.

Lemma calls_rejected (cs : list Call) (c : Call) (e : Error) :
  calls (settled cs ++ [Invoke c; Reject c e]) = cs ++ [c].
Proof. rewrite calls_app, calls_settled. reflexivity. Qed.

Lemma prefix_refl {A} (l : list A) : prefix l l.
Proof. exists []. apply app_nil_r. Qed.

Lemma prefix_nil {A} (l : list A) : prefix [] l.
Proof. exists l. reflexivity. Qed.

Lemma prefix_cons {A} (x : A) (l full : list A) :
  prefix l full -> prefix (x :: l) (x :: full).
Proof. intros [rest H]. exists rest. simpl. now rewrite H. Qed.

Lemma prefix_app {A} (h l full : list A) :
  prefix l full -> prefix (h ++ l) (h ++ full).
Proof. intros [rest H]. exists rest. rewrite <- app_assoc. now rewrite H. Qed.

Lemma prefix_app_l {A} (l more : list A) : prefix l (l ++ more).
Proof. exists more. reflexivity. Qed.

Lemma prefix_snoc_mid {A} (a : list A) (x : A) (b : list A) :
  prefix (a ++ [x]) (a ++ x :: b).
Proof. exists b. rewrite <- app_assoc. reflexivity. Qed.

Lemma prefix_In {A} (l full : list A) (x : A) : prefix l full -> In x l -> In x full.
Proof. intros [rest <-] H. apply in_or_app. now left. Qed.

Lemma prefix_Forall {A} (P : A -> Prop) (l full : list A) :
  prefix l full -> Forall P full -> Forall P l.
Proof. intros [rest <-] H. apply Forall_app in H. tauto. Qed.

Lemma prefix_count_occ {A} (dec : forall x y : A, {x = y} + {x <> y})
    (l full : list A) (x : A) :
  prefix l full -> count_occ dec l x <= count_occ dec full x.
Proof. intros [rest <-]. rewrite count_occ_app. lia. Qed.

Lemma sent_bodies_app (a b : list Call) :
  sent_bodies (a ++ b) = sent_bodies a ++ sent_bodies b.
Proof.
  induction a as [|c a IH]; simpl; [reflexivity|].
  destruct c; simpl; rewrite ?IH; reflexivity.
Qed.

Lemma prefix_sent_bodies (l full : list Call) :
  prefix l full -> prefix (sent_bodies l) (sent_bodies full).
Proof. intros [rest <-]. rewrite sent_bodies_app. apply prefix_app_l. Qed.

Lemma sent_bodies_sendScript cli rid (messages : list string) :
  sent_bodies (sendScript cli rid messages) = messages.
Proof. induction messages as [|m ms IH]; simpl; [reflexivity | now rewrite IH]. Qed.

(** ** How runs end *)

Lemma sequential_settled (cs : list Call) (tail : list Event) :
  sequential tail -> sequential (settled cs ++ tail).
Proof. induction cs as [|c cs IH]; simpl; auto. Qed.

Lemma outcome_sequential {A} (r : Result A) (tr : list Event) :
  outcome r tr -> sequential tr.
Proof.
  intros [a cs | e cs c].
  - rewrite <- (app_nil_r (settled cs)). apply sequential_settled. exact I.
  - apply sequential_settled. simpl. reflexivity.
Qed.

Lemma settled_no_reject (cs : list Call) (c : Call) (e : Error) :
  ~ In (Reject c e) (settled cs).
Proof.
  induction cs as [|c0 cs IH]; simpl; [tauto|].
  intros [H | [H | H]]; try discriminate. now apply IH.
Qed.

Lemma outcome_reject {A} (r : Result A) (tr : list Event) (c : Call) (e : Error) :
  outcome r tr -> In (Reject c e) tr ->
  r = Throw e /\ exists cs, tr = settled cs ++ [Invoke c; Reject c e].
Proof.
  intros [a cs | e0 cs c0] Hin.
  - exfalso. eapply settled_no_reject; eauto.
  - apply in_app_or in Hin. destruct Hin as [Hin | Hin].
    + exfalso. eapply settled_no_reject; eauto.
    + simpl in Hin. destruct Hin as [Hin | [Hin | []]]; try discriminate.
      injection Hin as -> ->. split; [reflexivity | now exists cs].
Qed.

Lemma outcome_throw_inv {A} (tr : list Event) (e : Error) :
  outcome (@Throw A e) tr ->
  exists cs c, tr = settled cs ++ [Invoke c; Reject c e].
Proof. intros H. inversion H; subst. eauto. Qed.

Lemma outcome_ok_inv {A} (a : A) (tr : list Event) :
  outcome (Ok a) tr -> exists cs, tr = settled cs.
Proof. intros H. inversion H; subst. eauto. Qed.

Section Discipline.

Variable env : Env.

Lemma disciplined_ret {A} (a : A) : disciplined (@ret env A a).
Proof. intros w. apply (outcome_ok a []). Qed.

Lemma disciplined_await {A} (c : Call) (run : World env -> Result A * World env) :
  disciplined (await c run).
Proof.
  intros w. unfold await, result_of, trace_of.
  destruct (run w) as [[a | e] w1]; simpl.
  - apply (outcome_ok a [c]).
  - apply (outcome_throw e [] c).
Qed.

Lemma disciplined_call (c : Call) : disciplined (call env c).
Proof. apply disciplined_await. Qed.

Lemma disciplined_bind {A B} (m : M env A) (f : A -> M env B) :
  disciplined m -> (forall a, disciplined (f a)) -> disciplined (bind m f).
Proof.
  intros Hm Hf w. specialize (Hm w). unfold bind, result_of, trace_of in *.
  destruct (m w) as [[[a | e] w1] t1]; simpl in *.
  - specialize (Hf a w1). unfold result_of, trace_of in Hf.
    destruct (f a w1) as [[r w2] t2]; simpl in *.
    apply outcome_ok_inv in Hm. destruct Hm as [cs1 ->].
    destruct Hf as [b cs2 | e cs2 c].
    + rewrite <- settled_app. constructor.
    + rewrite app_assoc, <- settled_app. constructor.
  - apply outcome_throw_inv in Hm. destruct Hm as (cs & c & ->). constructor.
Qed.

Lemma disciplined_for_of {A} (xs : list A) (body : A -> M env unit) :
  (forall x, disciplined (body x)) -> disciplined (for_of xs body).
Proof.
  intros Hb. induction xs as [|x xs IH]; simpl.
  - apply disciplined_ret.
  - apply disciplined_bind; auto.
Qed.

End Discipline.

Create HintDb discipline.
#[export] Hint Resolve disciplined_ret disciplined_await disciplined_call
  disciplined_bind disciplined_for_of : discipline.

Lemma disciplined_operation (env : Env) (op : Operation) :
  disciplined (run_operation env op).
Proof.
  destruct op; simpl;
    unfold receiveMessages, sendMessageAsClient, findRoomByName, evaluateRoomId,
      goTo, pinMessages, pinMessage, openUnpinAllDialog, openRoomInfo,
      assertPinnedCountInRoomInfo, openPinnedMessagesList,
      assertPinnedMessagesList, assertEmptyPinnedMessagesList,
      confirmUnpinAllDialog, backPinnedMessagesList, unpinMessageFromMessageList;
    auto 10 with discipline.
Qed.

(** ** Helpers as scripts *)

Section Scripts.

Variable env : Env.

Lemma bind_ext {A B} (m m' : M env A) (f f' : A -> M env B) (w : World env) :
  m w = m' w -> (forall a w1, f a w1 = f' a w1) -> bind m f w = bind m' f' w.
Proof.
  intros Hm Hf. unfold bind. rewrite Hm.
  destruct (m' w) as [[[a | e] w1] t1]; [rewrite Hf|]; reflexivity.
Qed.

Lemma bind_ret_r (m : M env unit) (w : World env) :
  bind m (fun _ => ret tt) w = m w.
Proof.
  unfold bind, ret. destruct (m w) as [[[[] | e] w1] t1]; [|reflexivity].
  now rewrite app_nil_r.
Qed.

Lemma bind_assoc {A B C} (m : M env A) (f : A -> M env B) (g : B -> M env C)
    (w : World env) :
  bind (bind m f) g w = bind m (fun a => bind (f a) g) w.
Proof.
  unfold bind. destruct (m w) as [[[a | e] w1] t1]; [|reflexivity].
  destruct (f a w1) as [[[b | e] w2] t2]; [|reflexivity].
  destruct (g b w2) as [[r w3] t3]. now rewrite app_assoc.
Qed.

Lemma perform_all_app (a b : list Call) (w : World env) :
  perform_all (a ++ b) w = bind (perform_all a) (fun _ => perform_all b) w.
Proof.
  revert w. induction a as [|c a IH]; intros w.
  - unfold perform_all at 2. simpl. unfold bind, ret.
    destruct (perform_all b w) as [[r w1] t1]. reflexivity.
  - change (perform_all ((c :: a) ++ b))
      with (bind (call env c) (fun _ => perform_all (env := env) (a ++ b))).
    change (perform_all (c :: a))
      with (bind (call env c) (fun _ => perform_all (env := env) a)).
    rewrite bind_assoc. apply bind_ext; [reflexivity|]. intros _ w1. apply IH.
Qed.

Lemma for_of_scripts {A} (xs : list A) (body : A -> M env unit)
    (script : A -> list Call) :
  (forall x w, body x w = perform_all (script x) w) ->
  forall w, for_of xs body w = perform_all (flat_map script xs) w.
Proof.
  intros Hb. induction xs as [|x xs IH]; intros w; simpl.
  - reflexivity.
  - rewrite perform_all_app. apply bind_ext; [apply Hb|]. intros _ w1. apply IH.
Qed.

Lemma call_pair (a b : Call) (w : World env) :
  bind (call env a) (fun _ => call env b) w = perform_all [a; b] w.
Proof.
  unfold perform_all. simpl. apply bind_ext; [reflexivity|].
  intros _ w1. symmetry. apply bind_ret_r.
Qed.

Lemma call_single (a : Call) (w : World env) :
  call env a w = perform_all [a] w.
Proof. unfold perform_all. simpl. symmetry. apply bind_ret_r. Qed.

Lemma perform_all_cons (c : Call) (cs : list Call) (w : World env) :
  perform_all (c :: cs) w =
  match perform env c w with
  | (Ok _, w1) =>
      (result_of (perform_all cs w1), world_of (perform_all cs w1),
       Invoke c :: Fulfil c :: trace_of (perform_all cs w1))
  | (Throw e, w1) => (Throw e, w1, [Invoke c; Reject c e])
  end.
Proof.
  unfold perform_all at 1. simpl. fold (perform_all (env := env) cs).
  unfold bind, call, await, result_of, world_of, trace_of.
  destruct (perform env c w) as [[[] | e] w1]; [|reflexivity].
  destruct (perform_all cs w1) as [[r w2] t2]. reflexivity.
Qed.

(** A script runs to its end, or up to the first rejected call. *)
Lemma perform_all_run (cs : list Call) (w : World env) :
  (result_of (perform_all cs w) = Ok tt /\
   trace_of (perform_all cs w) = settled cs)
  \/
  (exists cs1 c cs2 e,
      cs = cs1 ++ c :: cs2 /\
      result_of (perform_all cs w) = Throw e /\
      trace_of (perform_all cs w) = settled cs1 ++ [Invoke c; Reject c e]).
Proof.
  revert w. induction cs as [|c cs IH]; intros w.
  - left. split; reflexivity.
  - rewrite perform_all_cons.
    destruct (perform env c w) as [[[] | e] w1] eqn:Hc.
    + destruct (IH w1) as [[Hr Ht] | (cs1 & c1 & cs2 & e & Hcs & Hr & Ht)].
      * left. unfold result_of at 1, trace_of at 1. simpl.
        rewrite Hr, Ht. split; reflexivity.
      * right. exists (c :: cs1), c1, cs2, e.
        unfold result_of at 1, trace_of at 1. simpl.
        rewrite Hr, Ht, Hcs. repeat split.
    + right. exists [], c, cs, e. repeat split.
Qed.

Lemma perform_all_ok_iff (cs : list Call) (w : World env) :
  result_of (perform_all cs w) = Ok tt <-> checks_hold env w cs.
Proof.
  revert w. induction cs as [|c cs IH]; intros w.
  - simpl. split; [intros _; exact I | reflexivity].
  - rewrite perform_all_cons. simpl.
    destruct (perform env c w) as [[[] | e] w1]; simpl.
    + unfold result_of at 1. simpl. rewrite IH. tauto.
    + unfold result_of. simpl.
      split; [discriminate | intros [H _]; discriminate].
Qed.

Lemma perform_all_calls (cs : list Call) (w : World env) :
  prefix (calls (trace_of (perform_all cs w))) cs /\
  (result_of (perform_all cs w) = Ok tt ->
   trace_of (perform_all cs w) = settled cs).
Proof.
  destruct (perform_all_run cs w)
    as [[Hr Ht] | (cs1 & c1 & cs2 & e & Hcs & Hr & Ht)]; rewrite Ht.
  - rewrite calls_settled. split; [apply prefix_refl | reflexivity].
  - rewrite calls_rejected, Hr. split; [|discriminate].
    rewrite Hcs. apply prefix_snoc_mid.
Qed.

Lemma send_loop_script (cli : Client) (rid : string) (messages : list string)
    (w : World env) :
  for_of messages (fun message =>
    bind (call env (SendMessage cli rid {| body := message; msgtype := "m.text" |}))
         (fun _ => call env (WaitForTimeout 100))) w
  = perform_all (sendScript cli rid messages) w.
Proof.
  unfold sendScript. apply for_of_scripts. intros m w1. apply call_pair.
Qed.

Lemma pinMessages_script (messages : list string) (w : World env) :
  pinMessages env messages w = perform_all (pinScript messages) w.
Proof.
  unfold pinMessages, pinScript. apply for_of_scripts.
  intros m w1. unfold pinMessage. apply call_pair.
Qed.

Lemma assertPinnedMessagesList_script (messages : list string) (w : World env) :
  assertPinnedMessagesList env messages w
  = perform_all (assertListScript messages) w.
Proof.
  unfold assertPinnedMessagesList, assertListScript, perform_all. simpl.
  apply bind_ext; [reflexivity|]. intros _ w1.
  apply bind_ext; [reflexivity|]. intros _ w2.
  apply bind_ext; [reflexivity|]. intros _ w3.
  clear. revert w3. induction messages as [|m ms IH]; intros w; simpl.
  - reflexivity.
  - apply bind_ext; [reflexivity|]. intros _ w1. apply IH.
Qed.

End Scripts.

(** ** Runs of [sendMessageAsClient] *)

Section SendRuns.
Variable env : Env.
Lemma sendMessageAsClient_eq (cli : Client) (room : RoomArg)
    (messages : list string) (w : World env) :
  sendMessageAsClient env cli room messages w =
  match client_getRooms env w with
  | (Throw e, w1) =>
      (Throw e, w1, [Invoke (EvaluateHandle (roomNameOf room));
                     Reject (EvaluateHandle (roomNameOf room)) e])
  | (Ok rooms, w1) =>
      let handle := findPageFunction (roomNameOf room) rooms in
      let lookup := [Invoke (EvaluateHandle (roomNameOf room));
                     Fulfil (EvaluateHandle (roomNameOf room));
                     Invoke (HandleEvaluate handle)] in
      match perform env (HandleEvaluate handle) w1 with
      | (Throw e, w2) => (Throw e, w2, lookup ++ [Reject (HandleEvaluate handle) e])
      | (Ok _, w2) =>
          match roomIdPageFunction handle with
          | Throw e => (Throw e, w2, lookup ++ [Reject (HandleEvaluate handle) e])
          | Ok rid =>
              let x := perform_all (sendScript cli rid messages) w2 in
              (result_of x, world_of x,
               lookup ++ Fulfil (HandleEvaluate handle) :: trace_of x)
          end
      end
  end.
Proof.
  unfold sendMessageAsClient, findRoomByName, evaluateRoomId.
  unfold bind at 1. unfold await at 1.
  destruct (client_getRooms env w) as [[rooms | e] w1]; [|reflexivity].
  cbv zeta.
  unfold bind at 1. unfold await at 1.
  destruct (perform env (HandleEvaluate _) w1) as [[[] | e] w2]; [|reflexivity].
  destruct (roomIdPageFunction _) as [rid | e]; [|reflexivity].
  rewrite send_loop_script.
  unfold result_of, world_of, trace_of.
  destruct (perform_all _ w2) as [[r w3] t3]. reflexivity.
Qed.

Lemma sendMessageAsClient_shape (cli : Client) (room : RoomArg)
    (messages : list string) (w : World env) :
  exists handle rid,
    let full := EvaluateHandle (roomNameOf room) :: HandleEvaluate handle
                  :: sendScript cli rid messages in
    prefix (calls (trace_of (sendMessageAsClient env cli room messages w))) full
    /\ (result_of (sendMessageAsClient env cli room messages w) = Ok tt ->
        trace_of (sendMessageAsClient env cli room messages w) = settled full)
    /\ (result_of (sendMessageAsClient env cli room messages w) = Ok tt
        \/ (exists c, In c (calls (trace_of (sendMessageAsClient env cli room messages w)))
                      /\ is_send c = true) ->
        exists rooms w1 r,
          client_getRooms env w = (Ok rooms, w1) /\
          findPageFunction (roomNameOf room) rooms = Some r /\
          handle = Some r /\ rid = roomId r).
Proof.
  rewrite sendMessageAsClient_eq.
  destruct (client_getRooms env w) as [[rooms | e] w1].
  2:{ exists None, "". unfold result_of, trace_of. simpl. split; [|split].
      - apply prefix_cons, prefix_nil.
      - discriminate.
      - intros [H | (c & [H | []] & Hs)]; [discriminate|]. subst c. discriminate. }
  cbv zeta.
  set (handle := findPageFunction (roomNameOf room) rooms).
  assert (Hfail : forall e w2,
    let x : Result unit * World env * list Event :=
      (Throw e, w2,
       [Invoke (EvaluateHandle (roomNameOf room));
        Fulfil (EvaluateHandle (roomNameOf room));
        Invoke (HandleEvaluate handle)] ++ [Reject (HandleEvaluate handle) e]) in
    prefix (calls (trace_of x))
      (EvaluateHandle (roomNameOf room) :: HandleEvaluate handle
         :: sendScript cli "" messages)
    /\ (result_of x = Ok tt ->
        trace_of x = settled (EvaluateHandle (roomNameOf room) :: HandleEvaluate handle
                                :: sendScript cli "" messages))
    /\ (result_of x = Ok tt \/ (exists c, In c (calls (trace_of x)) /\ is_send c = true) ->
        exists rooms0 w0 r,
          (Ok rooms, w1) = (@Ok (list Room) rooms0, w0) /\
          findPageFunction (roomNameOf room) rooms0 = Some r /\
          handle = Some r /\ "" = roomId r)).
  { intros e w2. unfold result_of, trace_of. simpl. split; [|split].
    - apply prefix_cons, prefix_cons, prefix_nil.
    - discriminate.
    - intros [H | (c & [H | [H | []]] & Hs)]; [discriminate| |]; subst c; discriminate. }
  destruct (perform env (HandleEvaluate handle) w1) as [[[] | e] w2].
  2:{ exists handle, "". apply Hfail. }
  destruct handle as [r|] eqn:Hh; simpl roomIdPageFunction; cbv iota.
  2:{ exists None, "". apply Hfail. }
  exists (Some r), (roomId r). cbv zeta.
  destruct (perform_all_calls env (sendScript cli (roomId r) messages) w2) as [Hp Hok].
  unfold result_of at 1 2, trace_of at 1 2 3. simpl fst. simpl snd.
  split; [|split].
  - simpl. apply prefix_cons, prefix_cons. exact Hp.
  - intros H. rewrite (Hok H). reflexivity.
  - intros _. exists rooms, w1, r. auto.
Qed.
End SendRuns.

(** ** Spacing of sends *)

Lemma spaced_prefix (l full : list Call) :
  prefix l full -> consecutive_sends_spaced full -> consecutive_sends_spaced l.
Proof.
  intros [rest <-] H before a between b after Heq.
  apply (H before a between b (after ++ rest)).
  rewrite Heq. rewrite <- !app_assoc. simpl. rewrite <- app_assoc. reflexivity.
Qed.

Lemma spaced_cons_other (c : Call) (l : list Call) :
  is_send c = false -> consecutive_sends_spaced l -> consecutive_sends_spaced (c :: l).
Proof.
  intros Hc H before a between b after Heq Ha Hb Hmid.
  destruct before as [|x before]; simpl in Heq; injection Heq as -> Heq.
  - congruence.
  - eapply H; eauto.
Qed.

Lemma spaced_sendScript (cli : Client) (rid : string) (messages : list string) :
  consecutive_sends_spaced (sendScript cli rid messages).
Proof.
  induction messages as [|m ms IH]; intros before a between b after Heq Ha Hb Hmid.
  - destruct before; discriminate.
  - simpl in Heq. destruct before as [|x before]; simpl in Heq.
    + injection Heq as <- Heq.
      destruct between as [|y between]; simpl in Heq; injection Heq as <- Heq.
      * discriminate.
      * destruct between as [|z between]; [reflexivity|]. exfalso.
        destruct ms as [|m' ms]; simpl in Heq; [discriminate|].
        injection Heq as <- Heq.
        specialize (Hmid (SendMessage cli rid (textMessage m'))).
        simpl in Hmid. discriminate Hmid. auto.
    + injection Heq as <- Heq.
      destruct before as [|y before]; simpl in Heq; injection Heq as <- Heq.
      * discriminate.
      * eapply IH; eauto.
Qed.

Lemma sendScript_kinds (cli : Client) (rid : string) (messages : list string) :
  Forall lookup_send_or_wait (sendScript cli rid messages).
Proof.
  induction messages as [|m ms IH]; simpl; constructor.
  - right. left. reflexivity.
  - constructor; [|exact IH]. right. right. reflexivity.
Qed.

(** C1: in every run of [sendMessageAsClient] (and so of [receiveMessages],
    which is [sendMessageAsClient] with the bot), two sends that follow one
    another are separated by exactly one [waitForTimeout(100)]; the helper
    calls nothing but the room lookup, [sendMessage] and that wait; and a run
    that completes has made, after the lookup, the calls
    send, wait 100, send, wait 100, ... for the messages in order. *)
Theorem C1_fixed_wait_between_sends (env : Env) (cli : Client) (room : RoomArg)
    (messages : list string) (w : World env) :
  consecutive_sends_spaced (calls (trace_of (sendMessageAsClient env cli room messages w)))
  /\ Forall lookup_send_or_wait
            (calls (trace_of (sendMessageAsClient env cli room messages w)))
  /\ (result_of (sendMessageAsClient env cli room messages w) = Ok tt ->
      exists handle rid,
        calls (trace_of (sendMessageAsClient env cli room messages w))
        = EvaluateHandle (roomNameOf room) :: HandleEvaluate handle
            :: flat_map (fun message =>
                           [SendMessage cli rid {| body := message; msgtype := "m.text" |};
                            WaitForTimeout 100])
                        messages)
  /\ receiveMessages env room messages w
     = sendMessageAsClient env BotClient room messages w.
Proof.
  destruct (sendMessageAsClient_shape env cli room messages w)
    as (handle & rid & Hp & Hok & _).
  cbv zeta in *. repeat split.
  - eapply spaced_prefix; [exact Hp|].
    apply spaced_cons_other; [reflexivity|].
    apply spaced_cons_other; [reflexivity|]. apply spaced_sendScript.
  - eapply prefix_Forall; [exact Hp|].
    constructor; [left; reflexivity|].
    constructor; [left; reflexivity|]. apply sendScript_kinds.
  - intros H. exists handle, rid. rewrite (Hok H), calls_settled. reflexivity.
Qed.

(** A run of [receiveMessages] for three messages in "Room 1": the calls, and
    the spacing of its sends. *)
Lemma C1_witness :
  calls (trace_of (receiveMessages (scriptedEnv demoRooms neverFails)
                     (RoomString "Room 1") ["Msg1"; "Msg2"; "Msg3"] []))
  = [ EvaluateHandle "Room 1";
      HandleEvaluate (Some {| name := "Room 1"; roomId := "!one:localhost" |});
      SendMessage BotClient "!one:localhost" (textMessage "Msg1"); WaitForTimeout 100;
      SendMessage BotClient "!one:localhost" (textMessage "Msg2"); WaitForTimeout 100;
      SendMessage BotClient "!one:localhost" (textMessage "Msg3"); WaitForTimeout 100 ]
  /\ consecutive_sends_spaced
       (calls (trace_of (sendMessageAsClient (scriptedEnv demoRooms neverFails) BotClient
                           (RoomString "Room 1") ["Msg1"; "Msg2"; "Msg3"] []))).
Proof.
  split.
  - reflexivity.
  - exact (proj1 (C1_fixed_wait_between_sends (scriptedEnv demoRooms neverFails)
                    BotClient (RoomString "Room 1") ["Msg1"; "Msg2"; "Msg3"] [])).
Defined.

(** ** Which room, which client, which content *)


Lemma in_sendScript (cli c : Client) (rid r : string) (content : Content)
    (messages : list string) :
  In (SendMessage c r content) (sendScript cli rid messages) ->
  c = cli /\ r = rid /\ exists m, In m messages /\ content = textMessage m.
Proof.
  induction messages as [|m ms IH]; simpl; [tauto|].
  intros [H | [H | H]]; try discriminate.
  - injection H as <- <- <-. repeat split; eauto.
  - destruct (IH H) as (-> & -> & m' & Hin & ->). repeat split; eauto.
Qed.

Lemma filter_sendScript (cli : Client) (rid : string) (messages : list string) :
  filter is_send (sendScript cli rid messages)
  = map (fun m => SendMessage cli rid (textMessage m)) messages.
Proof. induction messages as [|m ms IH]; simpl; [reflexivity | now rewrite IH]. Qed.



(** C3, as the specification has it, fails: when the second of three sends
    is rejected, the loop ends there and the third message is never passed
    to [sendMessage]. *)
Lemma C3_counterexample :
  ~ every_message_is_sent (scriptedEnv demoRooms secondSendFails)
      (RoomString "Room 1") ["Msg1"; "Msg2"; "Msg3"] [].
Proof.
  intros H. destruct (H "Msg3") as [rid Hin].
  - simpl. auto.
  - simpl in Hin.
    repeat (destruct Hin as [Hin | Hin]; [discriminate Hin|]). exact Hin.
Qed.

(** C3, amended: every [sendMessage] call of [receiveMessages] is made on
    the bot client, never on the app client, to the id of the room the
    lookup resolved, with a content [{ body: m, msgtype: "m.text" }] for a
    message [m] of the list; and in a run that completes (the room is
    resolved, no call is rejected) every message of the list is so sent:
    the sends are, message by message and in order,
    [sendMessage(roomId, { body: m, msgtype: "m.text" })] on the bot. *)
Theorem C3_bot_sends_each_message_as_text (env : Env) (room : RoomArg)
    (messages : list string) (w : World env) :
  (forall cli rid content,
      In (SendMessage cli rid content)
         (calls (trace_of (receiveMessages env room messages w))) ->
      cli = BotClient
      /\ content = {| body := body content; msgtype := "m.text" |}
      /\ In (body content) messages
      /\ exists rooms w1 r,
           client_getRooms env w = (Ok rooms, w1) /\
           findPageFunction
             (match room with RoomString s => s | RoomObject o => obj_name o end)
             rooms = Some r /\
           rid = roomId r)
  /\ (result_of (receiveMessages env room messages w) = Ok tt ->
      exists rooms w1 r,
        client_getRooms env w = (Ok rooms, w1) /\
        findPageFunction
             (match room with RoomString s => s | RoomObject o => obj_name o end)
             rooms = Some r /\
        filter is_send (calls (trace_of (receiveMessages env room messages w)))
        = map (fun m => SendMessage BotClient (roomId r)
                                    {| body := m; msgtype := "m.text" |})
              messages /\
        forall m, In m messages ->
          In (SendMessage BotClient (roomId r) {| body := m; msgtype := "m.text" |})
             (calls (trace_of (receiveMessages env room messages w)))).
Proof.
  change (match room with RoomString s => s | RoomObject o => obj_name o end)
    with (roomNameOf room).
  unfold receiveMessages.
  destruct (sendMessageAsClient_shape env BotClient room messages w)
    as (handle & rid0 & Hp & Hok & Hres). cbv zeta in *.
  split.
  - intros cli rid content Hin.
    destruct Hres as (rooms & w1 & r & Hrooms & Hfind & -> & ->).
    { right. exists (SendMessage cli rid content). split; [exact Hin | reflexivity]. }
    apply (@prefix_In _ _ _ _ Hp) in Hin.
    destruct Hin as [H | [H | H]]; try discriminate.
    apply in_sendScript in H. destruct H as (-> & -> & m & Hm & ->).
    repeat split; auto. exists rooms, w1, r. auto.
  - intros H. destruct Hres as (rooms & w1 & r & Hrooms & Hfind & -> & ->); [now left|].
    exists rooms, w1, r. split; [exact Hrooms|]. split; [exact Hfind|].
    rewrite (Hok H), calls_settled. split.
    + simpl. apply filter_sendScript.
    + intros m Hm. simpl. right. right. unfold sendScript.
      apply in_flat_map. exists m. split; [exact Hm | now left].
Qed.

Lemma C3_witness :
  exists rooms w1 r,
    client_getRooms (scriptedEnv demoRooms neverFails) [] = (Ok rooms, w1) /\
    findPageFunction "Room 1" rooms = Some r /\
    [ SendMessage BotClient "!one:localhost" {| body := "Msg1"; msgtype := "m.text" |};
      SendMessage BotClient "!one:localhost" {| body := "Msg2"; msgtype := "m.text" |} ]
    = map (fun m => SendMessage BotClient (roomId r) {| body := m; msgtype := "m.text" |})
          ["Msg1"; "Msg2"] /\
    forall m, In m ["Msg1"; "Msg2"] ->
      In (SendMessage BotClient (roomId r) {| body := m; msgtype := "m.text" |})
         (calls (trace_of (receiveMessages (scriptedEnv demoRooms neverFails)
                             (RoomString "Room 1") ["Msg1"; "Msg2"] []))).
Proof.
  exact (proj2 (C3_bot_sends_each_message_as_text (scriptedEnv demoRooms neverFails)
                  (RoomString "Room 1") ["Msg1"; "Msg2"] [])
               eq_refl).
Defined.

(** ** Every operation follows its script *)

Lemma call_triple (env : Env) (a b c : Call) (w : World env) :
  bind (call env a) (fun _ => bind (call env b) (fun _ => call env c)) w
  = perform_all [a; b; c] w.
Proof.
  unfold perform_all. simpl. apply bind_ext; [reflexivity|]. intros _ w1.
  apply bind_ext; [reflexivity|]. intros _ w2. symmetry. apply bind_ret_r.
Qed.

Lemma operation_is_script (env : Env) (op : Operation) (w : World env) :
  (exists room messages, op = OpReceiveMessages room messages)
  \/ forall handle rid,
       run_operation env op w = perform_all (operation_script op handle rid) w.
Proof.
  destruct op; simpl; try (left; eauto; fail); right; intros handle rid.
  - apply call_single.
  - unfold pinMessage. apply call_pair.
  - apply pinMessages_script.
  - apply call_single.
  - apply call_single.
  - apply call_single.
  - apply assertPinnedMessagesList_script.
  - apply call_single.
  - apply call_triple.
  - apply call_single.
  - apply call_single.
  - unfold unpinMessageFromMessageList. apply call_pair.
Qed.

Lemma operation_follows_script (env : Env) (op : Operation) (w : World env) :
  exists handle rid,
    prefix (calls (trace_of (run_operation env op w))) (operation_script op handle rid)
    /\ (result_of (run_operation env op w) = Ok tt ->
        trace_of (run_operation env op w) = settled (operation_script op handle rid)).
Proof.
  destruct (operation_is_script env op w) as [(room & messages & ->) | H].
  - simpl. unfold receiveMessages.
    destruct (sendMessageAsClient_shape env BotClient room messages w)
      as (handle & rid & Hp & Hok & _).
    exists handle, rid. split; assumption.
  - exists None, "". rewrite (H None ""). apply perform_all_calls.
Qed.

(** C4: a run of [receiveMessages] makes one call at a time: each call it
    starts is settled before the next one starts, and nothing starts after a
    rejection; the messages are sent in list order; and a run that completes
    has the trace  lookup, then for each message in order: send started,
    send fulfilled, wait started, wait fulfilled. *)
Theorem C4_sends_are_sequential_in_list_order (env : Env) (room : RoomArg)
    (messages : list string) (w : World env) :
  sequential (trace_of (receiveMessages env room messages w))
  /\ prefix (sent_bodies (calls (trace_of (receiveMessages env room messages w))))
            messages
  /\ (result_of (receiveMessages env room messages w) = Ok tt ->
      exists handle rid,
        trace_of (receiveMessages env room messages w)
        = [Invoke (EvaluateHandle (roomNameOf room));
           Fulfil (EvaluateHandle (roomNameOf room));
           Invoke (HandleEvaluate handle); Fulfil (HandleEvaluate handle)]
          ++ flat_map
               (fun m =>
                  [Invoke (SendMessage BotClient rid (textMessage m));
                   Fulfil (SendMessage BotClient rid (textMessage m));
                   Invoke (WaitForTimeout 100); Fulfil (WaitForTimeout 100)])
               messages).
Proof.
  split; [|split].
  - eapply outcome_sequential.
    apply (disciplined_operation env (OpReceiveMessages room messages) w).
  - unfold receiveMessages.
    destruct (sendMessageAsClient_shape env BotClient room messages w)
      as (handle & rid & Hp & _). cbv zeta in Hp.
    apply prefix_sent_bodies in Hp. simpl in Hp.
    now rewrite sent_bodies_sendScript in Hp.
  - intros H. unfold receiveMessages in *.
    destruct (sendMessageAsClient_shape env BotClient room messages w)
      as (handle & rid & _ & Hok & _). cbv zeta in Hok.
    exists handle, rid. rewrite (Hok H). simpl. do 4 f_equal.
    unfold settled, sendScript. clear.
    induction messages as [|m ms IH]; simpl; [reflexivity | now rewrite IH].
Qed.

(** Two messages: the trace of the run, and the calls as the collaborators
    received them. *)
Lemma C4_witness :
  world_of (receiveMessages (scriptedEnv demoRooms neverFails)
              (RoomString "Room 1") ["Msg1"; "Msg2"] [])
  = [ HandleEvaluate (Some {| name := "Room 1"; roomId := "!one:localhost" |});
      SendMessage BotClient "!one:localhost" (textMessage "Msg1"); WaitForTimeout 100;
      SendMessage BotClient "!one:localhost" (textMessage "Msg2"); WaitForTimeout 100 ]
  /\ exists handle rid,
       trace_of (receiveMessages (scriptedEnv demoRooms neverFails)
                   (RoomString "Room 1") ["Msg1"; "Msg2"] [])
       = [Invoke (EvaluateHandle "Room 1"); Fulfil (EvaluateHandle "Room 1");
          Invoke (HandleEvaluate handle); Fulfil (HandleEvaluate handle)]
         ++ flat_map
              (fun m =>
                 [Invoke (SendMessage BotClient rid (textMessage m));
                  Fulfil (SendMessage BotClient rid (textMessage m));
                  Invoke (WaitForTimeout 100); Fulfil (WaitForTimeout 100)])
              ["Msg1"; "Msg2"].
Proof.
  split.
  - reflexivity.
  - exact (proj2 (proj2 (C4_sends_are_sequential_in_list_order
                           (scriptedEnv demoRooms neverFails)
                           (RoomString "Room 1") ["Msg1"; "Msg2"] []))
                 eq_refl).
Defined.

(** C5: no operation of [Helpers] retries or recovers.  Whatever the
    operation and the world: a rejected call ends the run, the helper is
    rejected with that very error, and a rejected helper always ends on the
    rejected call that caused it; the calls made are the operation's script
    from its start, each at most once, cut at the rejection.  So
    [receiveMessages] passes a message to [sendMessage] no more often than it
    occurs in the list, [pinMessages] clicks down its script once, and
    besides the room lookup [receiveMessages] calls only [sendMessage] and
    the fixed wait. *)
Theorem C5_no_retry_and_errors_propagate (env : Env) (w : World env) :
  (forall op,
      (forall c e,
          In (Reject c e) (trace_of (run_operation env op w)) ->
          result_of (run_operation env op w) = Throw e /\
          exists cs, trace_of (run_operation env op w)
                     = settled cs ++ [Invoke c; Reject c e])
      /\ (forall e,
             result_of (run_operation env op w) = Throw e ->
             exists cs c, trace_of (run_operation env op w)
                          = settled cs ++ [Invoke c; Reject c e])
      /\ (exists handle rid,
             prefix (calls (trace_of (run_operation env op w)))
                    (operation_script op handle rid)))
  /\ (forall room messages m,
         count_occ string_dec
           (sent_bodies (calls (trace_of (receiveMessages env room messages w)))) m
         <= count_occ string_dec messages m)
  /\ (forall messages,
         prefix (calls (trace_of (pinMessages env messages w))) (pinScript messages))
  /\ (forall room messages,
         Forall lookup_send_or_wait
                (calls (trace_of (receiveMessages env room messages w)))).
Proof.
  split; [|split; [|split]].
  - intros op. pose proof (disciplined_operation env op w) as Hd.
    split; [|split].
    + intros c e Hin. eapply outcome_reject; eauto.
    + intros e He. rewrite He in Hd. apply outcome_throw_inv in Hd. exact Hd.
    + destruct (operation_follows_script env op w) as (handle & rid & Hp & _).
      eauto.
  - intros room messages m. apply prefix_count_occ. unfold receiveMessages.
    destruct (sendMessageAsClient_shape env BotClient room messages w)
      as (handle & rid & Hp & _). cbv zeta in Hp.
    apply prefix_sent_bodies in Hp. simpl in Hp.
    now rewrite sent_bodies_sendScript in Hp.
  - intros messages. rewrite pinMessages_script. apply perform_all_calls.
  - intros room messages. unfold receiveMessages.
    destruct (sendMessageAsClient_shape env BotClient room messages w)
      as (handle & rid & Hp & _). cbv zeta in Hp.
    eapply prefix_Forall; [exact Hp|].
    constructor; [left; reflexivity|].
    constructor; [left; reflexivity|]. apply sendScript_kinds.
Qed.

(** The second of three sends is rejected: the helper is rejected with the
    same error, the third message is never sent, the second is not sent
    again. *)
Lemma C5_witness :
  sent_bodies (calls (trace_of (receiveMessages (scriptedEnv demoRooms secondSendFails)
                                  (RoomString "Room 1") ["Msg1"; "Msg2"; "Msg3"] [])))
  = ["Msg1"; "Msg2"]
  /\ result_of (run_operation (scriptedEnv demoRooms secondSendFails)
                  (OpReceiveMessages (RoomString "Room 1") ["Msg1"; "Msg2"; "Msg3"]) [])
     = Throw (FrameworkError "M_LIMIT_EXCEEDED")
  /\ exists cs,
       trace_of (run_operation (scriptedEnv demoRooms secondSendFails)
                   (OpReceiveMessages (RoomString "Room 1") ["Msg1"; "Msg2"; "Msg3"]) [])
       = settled cs
           ++ [Invoke (SendMessage BotClient "!one:localhost" (textMessage "Msg2"));
               Reject (SendMessage BotClient "!one:localhost" (textMessage "Msg2"))
                      (FrameworkError "M_LIMIT_EXCEEDED")].
Proof.
  split; [reflexivity|].
  apply (proj1 (proj1 (C5_no_retry_and_errors_propagate
                         (scriptedEnv demoRooms secondSendFails) [])
                      (OpReceiveMessages (RoomString "Room 1") ["Msg1"; "Msg2"; "Msg3"]))).
  simpl. do 9 right. left. reflexivity.
Defined.

(** C6: for every count [n] (a non-negative integer up to
    [Number.MAX_SAFE_INTEGER]), [assertPinnedCountInRoomInfo(n)] makes
    exactly one call: the expectation that the "Pinned messages" menu item
    has the text "Pinned messages" followed by the decimal digits of [n].
    It clicks nothing and performs no other action on the page; it is
    fulfilled or rejected as that expectation is; the world it leaves is the
    one that expectation leaves, so where the expectation only reads, the
    page is as it was. *)
Theorem C6_pinned_count_assertion (env : Env) (n : SafeInteger) (w : World env) :
  calls (trace_of (assertPinnedCountInRoomInfo env n w))
  = [ExpectToHaveText (GetByRole ThePage "menuitem" (Some "Pinned messages"))
                      ("Pinned messages"
                         ++ NilEmpty.string_of_uint (N.to_uint (safe_value n)))]
  /\ Forall (fun c => is_click c = false /\ is_action c = false)
            (calls (trace_of (assertPinnedCountInRoomInfo env n w)))
  /\ result_of (assertPinnedCountInRoomInfo env n w)
     = fst (perform env
              (ExpectToHaveText (GetByRole ThePage "menuitem" (Some "Pinned messages"))
                                ("Pinned messages"
                                   ++ NilEmpty.string_of_uint (N.to_uint (safe_value n))))
              w)
  /\ world_of (assertPinnedCountInRoomInfo env n w)
     = snd (perform env
              (ExpectToHaveText (GetByRole ThePage "menuitem" (Some "Pinned messages"))
                                ("Pinned messages"
                                   ++ NilEmpty.string_of_uint (N.to_uint (safe_value n))))
              w)
  /\ (read_only env
        (ExpectToHaveText (GetByRole ThePage "menuitem" (Some "Pinned messages"))
                          ("Pinned messages"
                             ++ NilEmpty.string_of_uint (N.to_uint (safe_value n)))) ->
      world_of (assertPinnedCountInRoomInfo env n w) = w).
Proof.
  assert (Hw : world_of (assertPinnedCountInRoomInfo env n w)
               = snd (perform env
                        (ExpectToHaveText
                           (GetByRole ThePage "menuitem" (Some "Pinned messages"))
                           ("Pinned messages"
                              ++ NilEmpty.string_of_uint (N.to_uint (safe_value n))))
                        w)).
  { unfold assertPinnedCountInRoomInfo, call, await, numberToString, world_of.
    destruct (perform env _ w) as [[[] | e] w1]; reflexivity. }
  split; [|split; [|split; [|split]]].
  - unfold assertPinnedCountInRoomInfo, call, await, numberToString, trace_of.
    destruct (perform env _ w) as [[[] | e] w1]; reflexivity.
  - unfold assertPinnedCountInRoomInfo, call, await, numberToString, trace_of.
    destruct (perform env _ w) as [[[] | e] w1]; simpl; repeat constructor.
  - unfold assertPinnedCountInRoomInfo, call, await, numberToString, result_of.
    destruct (perform env _ w) as [[[] | e] w1]; reflexivity.
  - exact Hw.
  - intros Hread. rewrite Hw. apply Hread.
Qed.

(** The count 3, after two clicks were recorded: the text expected is
    "Pinned messages3" and the record of the page is as it was. *)
Lemma C6_witness :
  calls (trace_of (assertPinnedCountInRoomInfo watchingEnv count_of_3
                     [pinItemClick; pinItemClick]))
  = [ExpectToHaveText (GetByRole ThePage "menuitem" (Some "Pinned messages"))
                      "Pinned messages3"]
  /\ world_of (assertPinnedCountInRoomInfo watchingEnv count_of_3
                 [pinItemClick; pinItemClick])
     = [pinItemClick; pinItemClick].
Proof.
  split.
  - exact (proj1 (C6_pinned_count_assertion watchingEnv count_of_3
                    [pinItemClick; pinItemClick])).
  - apply (proj2 (proj2 (proj2 (proj2 (C6_pinned_count_assertion watchingEnv count_of_3
                                         [pinItemClick; pinItemClick]))))).
    intros w. reflexivity.
Defined.

(** C7, as the specification has it, fails: when the screenshot of the right
    panel differs, the heading, the count and the visibility of the message
    all hold and yet [assertPinnedMessagesList] is rejected. *)
Lemma C7_counterexample :
  ~ succeeds_iff_specified_checks (scriptedEnv demoRooms screenshotMismatch) ["Msg1"] [].
Proof.
  unfold succeeds_iff_specified_checks. intros [_ H].
  assert (Hc : checks_hold (scriptedEnv demoRooms screenshotMismatch) []
                 (specifiedListChecks ["Msg1"])).
  { simpl. auto. }
  apply H in Hc. discriminate Hc.
Qed.

(** C7, amended: [assertPinnedMessagesList(messages)] makes four kinds of
    assertion on the right panel, in this order: the heading has the text
    [`${messages.length} Pinned messages`], the panel matches the screenshot
    [pinned-messages-list-messages-${messages.length}.png], the list has
    [messages.length] list items, and each message is visible.  It succeeds
    if and only if all of them hold, each where its predecessors left the
    page; the calls it makes are these, from the first up to the one that
    fails. *)
Theorem C7_assertion_list_with_screenshot (env : Env) (messages : list string)
    (w : World env) :
  (result_of (assertPinnedMessagesList env messages w) = Ok tt
   <-> checks_hold env w
         (headingCheck messages :: screenshotCheck messages :: countCheck messages
            :: map visibleCheck messages))
  /\ prefix (calls (trace_of (assertPinnedMessagesList env messages w)))
            (headingCheck messages :: screenshotCheck messages :: countCheck messages
               :: map visibleCheck messages)
  /\ headingCheck messages
     = ExpectToHaveText
         (GetByRole (Locate ThePage "#mx_RightPanel" None) "heading" (Some "Pinned messages"))
         (NilEmpty.string_of_uint (N.to_uint (N.of_nat (List.length messages)))
            ++ " Pinned messages").
Proof.
  rewrite assertPinnedMessagesList_script. split; [|split].
  - apply perform_all_ok_iff.
  - apply perform_all_calls.
  - reflexivity.
Qed.

Lemma C7_witness :
  result_of (assertPinnedMessagesList (scriptedEnv demoRooms neverFails)
               ["Msg1"; "Msg2"] []) = Ok tt
  /\ headingCheck ["Msg1"; "Msg2"]
     = ExpectToHaveText
         (GetByRole (Locate ThePage "#mx_RightPanel" None) "heading" (Some "Pinned messages"))
         "2 Pinned messages".
Proof.
  split.
  - apply (proj1 (C7_assertion_list_with_screenshot (scriptedEnv demoRooms neverFails)
                    ["Msg1"; "Msg2"] [])).
    simpl. repeat split.
  - reflexivity.
Defined.




(** C9: a string [s] and any object whose [name] is [s] are interchangeable:
    [receiveMessages] and [goTo] give the same result, the same world and the
    same trace for both forms. *)
Theorem C9_string_and_object_forms_agree (env : Env) (s : string)
    (others : list (string * string)) (messages : list string) (w : World env) :
  receiveMessages env (RoomString s) messages w
  = receiveMessages env (RoomObject {| obj_name := s; obj_others := others |}) messages w
  /\ goTo env (RoomString s) w
     = goTo env (RoomObject {| obj_name := s; obj_others := others |}) w.
Proof. split; reflexivity. Qed.

Example empty_receive_unknown_room :
  receiveMessages (scriptedEnv [] neverFails) (RoomString "Room 1") [] []
  = (Throw (TypeError "Cannot read properties of undefined (reading 'roomId')"),
     [HandleEvaluate None],
     [Invoke (EvaluateHandle "Room 1"); Fulfil (EvaluateHandle "Room 1");
      Invoke (HandleEvaluate None);
      Reject (HandleEvaluate None)
             (TypeError "Cannot read properties of undefined (reading 'roomId')")]).
Proof. reflexivity. Qed.

Example screenshot_mismatch_rejects :
  result_of (assertPinnedMessagesList (scriptedEnv demoRooms screenshotMismatch)
               ["Msg1"] [])
  = Throw (FrameworkError "Screenshot comparison failed").
Proof. reflexivity. Qed.

(** ** The factory on a missing room *)

Module MemberListFacts.
Import MemberList.

(** C10: when [cli.getRoom(roomId)] is [null], the mapper the factory gives
    to [useEventEmitterState] yields [false] without calling [canInviteTo]
    (which would raise on [null]); the factory raises nothing of its own and
    hands [useMemberListViewModel] the state, [false] for [isSpaceRoom] and
    the member service; and with the state being the mapper's value, the
    view model is built from [false], [false] and the member service. *)
Theorem C10_missing_room_is_not_dereferenced (ctx : Context) (roomId : string) :
  getRoom ctx (useMatrixClientContext ctx) roomId = None ->
  canInviteMapper ctx (getRoom ctx (useMatrixClientContext ctx) roomId) tt = Ok false
  /\ canInviteTo ctx (getRoom ctx (useMatrixClientContext ctx) roomId)
     = Throw dereference_error
  /\ useMemberListViewModelFactory ctx roomId
     = match useEventEmitterState ctx None Update (fun _ => Ok false) with
       | Ok state =>
           Ok (useMemberListViewModel ctx state false (newMemberService ctx roomId))
       | Throw e => Throw e
       end
  /\ (state_is_mapped ctx ->
      useMemberListViewModelFactory ctx roomId
      = Ok (useMemberListViewModel ctx false false (newMemberService ctx roomId))).
Proof.
  intros Hroom. unfold useMemberListViewModelFactory. cbv zeta. rewrite Hroom.
  repeat split.
  intros Hstate. rewrite Hstate. reflexivity.
Qed.

Lemma C10_witness :
  useMemberListViewModelFactory oneRoomContext "!gone:localhost"
  = Ok (false, false,
        {| service_roomId := "!gone:localhost";
           service_client := tt;
           service_store := tt |}).
Proof.
  exact (proj2 (proj2 (proj2 (@C10_missing_room_is_not_dereferenced
                                oneRoomContext "!gone:localhost" eq_refl)))
               (fun _ _ _ => eq_refl)).
Defined.

(** The same context with the room at hand: the guard lets [canInviteTo]
    run and the optional chain calls [isSpaceRoom]. *)
Example factory_with_room :
  useMemberListViewModelFactory oneRoomContext "!space:localhost"
  = Ok (true, true,
        {| service_roomId := "!space:localhost";
           service_client := tt;
           service_store := tt |}).
Proof. reflexivity. Qed.

End MemberListFacts.

(** * Further properties of the helpers *)

Section Composition.

Variable env : Env.

Lemma bind_ret_l {B} (f : unit -> M env B) (w : World env) :
  bind (ret tt) f w = f tt w.
Proof. unfold bind, ret. destruct (f tt w) as [[r w1] t1]. reflexivity. Qed.

Lemma for_of_app {A} (xs ys : list A) (body : A -> M env unit) (w : World env) :
  for_of (xs ++ ys) body w
  = bind (for_of xs body) (fun _ => for_of ys body) w.
Proof.
  revert w. induction xs as [|x xs IH]; intros w; simpl.
  - symmetry. apply bind_ret_l.
  - rewrite bind_assoc. apply bind_ext; [reflexivity|]. intros _ w1. apply IH.
Qed.

(** Pinning a list in two calls is pinning the concatenation in one: the
    result, the world and the trace are those of [pinMessages(first)]
    followed, when it is fulfilled, by [pinMessages(second)]; and pinning a
    one-element list is [pinMessage] of the element. *)
Theorem pinMessages_concatenation (first second : list string) (message : string)
    (w : World env) :
  pinMessages env (first ++ second) w
  = bind (pinMessages env first) (fun _ => pinMessages env second) w
  /\ pinMessages env [message] w = pinMessage env message w.
Proof.
  split.
  - unfold pinMessages. apply for_of_app.
  - unfold pinMessages. simpl. apply bind_ret_r.
Qed.

End Composition.

Section MoreOnSending.

Variable env : Env.

Lemma findPageFunction_none (roomName : string) (rooms : list Room) :
  (forall r, In r rooms -> name r <> roomName) ->
  findPageFunction roomName rooms = None.
Proof.
  unfold findPageFunction. induction rooms as [|x rooms IH]; intros H; simpl.
  - reflexivity.
  - destruct (String.eqb_spec (name x) roomName) as [Heq | Hne].
    + exfalso. apply (H x); [now left | exact Heq].
    + apply IH. intros r Hin. apply H. now right.
Qed.

(** A name that no room of [getRooms()] has: [findRoomByName] is fulfilled
    all the same, with a handle of [undefined]; [sendMessageAsClient] then
    makes the two lookup calls and is rejected, sending nothing whatever the
    messages are; when [evaluate] itself goes through, the error is the
    [TypeError] of reading [roomId] of [undefined]. *)
Theorem missing_room_rejects_before_sending (cli : Client) (room : RoomArg)
    (messages : list string) (w : World env) (rooms : list Room) (w1 : World env) :
  client_getRooms env w = (Ok rooms, w1) ->
  (forall r, In r rooms -> name r <> roomNameOf room) ->
  result_of (findRoomByName env (roomNameOf room) w) = Ok None
  /\ calls (trace_of (sendMessageAsClient env cli room messages w))
     = [EvaluateHandle (roomNameOf room); HandleEvaluate None]
  /\ (exists e, result_of (sendMessageAsClient env cli room messages w) = Throw e)
  /\ (fst (perform env (HandleEvaluate None) w1) = Ok tt ->
      result_of (sendMessageAsClient env cli room messages w)
      = Throw missing_room_error).
Proof.
  intros Hrooms Hnone. apply findPageFunction_none in Hnone.
  split.
  { unfold findRoomByName, await, result_of. rewrite Hrooms, Hnone. reflexivity. }
  rewrite sendMessageAsClient_eq, Hrooms. cbv zeta. rewrite Hnone.
  destruct (perform env (HandleEvaluate None) w1) as [[[] | e] w2]; simpl;
    unfold result_of, trace_of; simpl.
  - repeat split; eauto.
  - repeat split; eauto. discriminate.
Qed.

End MoreOnSending.

Lemma missing_room_witness :
  calls (trace_of (sendMessageAsClient (scriptedEnv demoRooms neverFails) BotClient
                     (RoomString "Room") ["Msg1"; "Msg2"] []))
  = [EvaluateHandle "Room"; HandleEvaluate None]
  /\ result_of (sendMessageAsClient (scriptedEnv demoRooms neverFails) BotClient
                  (RoomString "Room") ["Msg1"; "Msg2"] [])
     = Throw missing_room_error.
Proof.
  assert (H : forall r, In r demoRooms -> name r <> roomNameOf (RoomString "Room")).
  { intros r [<- | [<- | [<- | []]]]; discriminate. }
  pose proof (@missing_room_rejects_before_sending
                (scriptedEnv demoRooms neverFails) BotClient (RoomString "Room")
                ["Msg1"; "Msg2"] [] demoRooms [] eq_refl H) as P.
  split.
  - exact (proj1 (proj2 P)).
  - exact (proj2 (proj2 (proj2 P)) eq_refl).
Defined.

Lemma prefix_cons_inv {A} (x : A) (l full : list A) :
  prefix l (x :: full) -> l = [] \/ exists l', l = x :: l' /\ prefix l' full.
Proof.
  intros [rest H]. destruct l as [|y l]; [now left|]. right.
  simpl in H. injection H as -> H. exists l. split; [reflexivity | now exists rest].
Qed.

Lemma sendScript_prefix_counts (cli : Client) (rid : string) (messages : list string)
    (l : list Call) :
  prefix l (sendScript cli rid messages) ->
  List.length (filter is_wait l) <= List.length (filter is_send l)
  /\ List.length (filter is_send l) <= S (List.length (filter is_wait l)).
Proof.
  revert l. induction messages as [|m ms IH]; intros l Hp.
  - destruct Hp as [rest H]. apply app_eq_nil in H. destruct H as [-> _].
    simpl. lia.
  - simpl in Hp. apply prefix_cons_inv in Hp.
    destruct Hp as [-> | (l1 & -> & Hp)]; [simpl; lia|].
    apply prefix_cons_inv in Hp.
    destruct Hp as [-> | (l2 & -> & Hp)]; [simpl; lia|].
    specialize (IH l2 Hp). simpl. lia.
Qed.

Lemma sendScript_counts (cli : Client) (rid : string) (messages : list string) :
  List.length (filter is_send (sendScript cli rid messages)) = List.length messages
  /\ List.length (filter is_wait (sendScript cli rid messages)) = List.length messages.
Proof. induction messages as [|m ms [IH1 IH2]]; simpl; [auto | lia]. Qed.

Lemma sendScript_last (cli : Client) (rid : string) (messages : list string)
    (c d : Call) :
  messages <> [] ->
  last (c :: d :: sendScript cli rid messages) c = WaitForTimeout 100.
Proof.
  intros Hne. revert c d. induction messages as [|m ms IH]; [congruence|].
  intros c d. destruct ms as [|m' ms]; [reflexivity|].
  change (last (c :: d :: sendScript cli rid (m :: m' :: ms)) c)
    with (last (SendMessage cli rid (textMessage m) :: WaitForTimeout 100
                  :: sendScript cli rid (m' :: ms)) c).
  assert (Hd : forall (l : list Call) (x y a b : Call),
             last (x :: y :: l) a = last (x :: y :: l) b).
  { clear. intros l. induction l as [|z l IHl]; intros x y a b; [reflexivity|].
    change (last (y :: z :: l) a = last (y :: z :: l) b). apply IHl. }
  rewrite (Hd _ _ _ c (SendMessage cli rid (textMessage m))).
  apply IH. discriminate.
Qed.

(** The wait is part of every round, the last one too: in any run of
    [sendMessageAsClient] the waits started are as many as the sends or one
    fewer; a run that completes has sent once and waited once per message,
    and with at least one message its last call is the wait of 100 ms. *)
Theorem wait_follows_every_send (env : Env) (cli : Client) (room : RoomArg)
    (messages : list string) (w : World env) :
  List.length (filter is_wait (calls (trace_of (sendMessageAsClient env cli room messages w))))
  <= List.length (filter is_send (calls (trace_of (sendMessageAsClient env cli room messages w))))
  /\ List.length (filter is_send (calls (trace_of (sendMessageAsClient env cli room messages w))))
     <= S (List.length
             (filter is_wait (calls (trace_of (sendMessageAsClient env cli room messages w)))))
  /\ (result_of (sendMessageAsClient env cli room messages w) = Ok tt ->
      List.length
        (filter is_send (calls (trace_of (sendMessageAsClient env cli room messages w))))
      = List.length messages
      /\ List.length
           (filter is_wait (calls (trace_of (sendMessageAsClient env cli room messages w))))
         = List.length messages
      /\ (messages <> [] ->
          last (calls (trace_of (sendMessageAsClient env cli room messages w)))
               (EvaluateHandle (roomNameOf room))
          = WaitForTimeout 100)).
Proof.
  destruct (sendMessageAsClient_shape env cli room messages w)
    as (handle & rid & Hp & Hok & _). cbv zeta in *.
  assert (Hcounts :
    List.length (filter is_wait (calls (trace_of (sendMessageAsClient env cli room messages w))))
    <= List.length (filter is_send (calls (trace_of (sendMessageAsClient env cli room messages w))))
    /\ List.length (filter is_send (calls (trace_of (sendMessageAsClient env cli room messages w))))
       <= S (List.length
               (filter is_wait (calls (trace_of (sendMessageAsClient env cli room messages w)))))).
  { apply prefix_cons_inv in Hp. destruct Hp as [-> | (l1 & -> & Hp)]; [simpl; lia|].
    apply prefix_cons_inv in Hp. destruct Hp as [-> | (l2 & -> & Hp)]; [simpl; lia|].
    simpl. eapply sendScript_prefix_counts; eauto. }
  destruct Hcounts as [H1 H2]. split; [exact H1|]. split; [exact H2|].
  intros H. rewrite (Hok H), calls_settled. simpl filter.
  destruct (sendScript_counts cli rid messages) as [Hs Hw].
  split; [exact Hs|]. split; [exact Hw|].
  intros Hne. apply sendScript_last. exact Hne.
Qed.

Lemma wait_follows_every_send_witness :
  List.length
    (filter is_wait (calls (trace_of (sendMessageAsClient (scriptedEnv demoRooms neverFails)
                                        BotClient (RoomString "Room 1") ["Msg1"; "Msg2"] []))))
  = 2
  /\ List.length
       (filter is_send (calls (trace_of (sendMessageAsClient
                                           (scriptedEnv demoRooms secondSendFails)
                                           BotClient (RoomString "Room 1")
                                           ["Msg1"; "Msg2"; "Msg3"] []))))
     <= S (List.length
             (filter is_wait (calls (trace_of (sendMessageAsClient
                                                 (scriptedEnv demoRooms secondSendFails)
                                                 BotClient (RoomString "Room 1")
                                                 ["Msg1"; "Msg2"; "Msg3"] []))))).
Proof.
  split.
  - exact (proj1 (proj2 (proj2 (proj2 (wait_follows_every_send
                                         (scriptedEnv demoRooms neverFails) BotClient
                                         (RoomString "Room 1") ["Msg1"; "Msg2"] []))
                               eq_refl))).
  - exact (proj1 (proj2 (wait_follows_every_send
                           (scriptedEnv demoRooms secondSendFails) BotClient
                           (RoomString "Room 1") ["Msg1"; "Msg2"; "Msg3"] []))).
Defined.

Lemma sendScript_no_lookup (cli : Client) (rid : string) (messages : list string) :
  Forall (fun c => is_lookup c = false) (sendScript cli rid messages).
Proof. induction messages as [|m ms IH]; simpl; repeat constructor; exact IH. Qed.

(** The room is resolved once per call, before the first message: a run of
    [sendMessageAsClient] starts with the one [evaluateHandle] lookup, makes
    no further [evaluateHandle] and at most one [evaluate] on the handle,
    and all the messages it sends go to the same room id, whatever happens
    to the rooms while it runs. *)
Theorem room_resolved_once (env : Env) (cli : Client) (room : RoomArg)
    (messages : list string) (w : World env) :
  (exists rest,
      calls (trace_of (sendMessageAsClient env cli room messages w))
      = EvaluateHandle (roomNameOf room) :: rest
      /\ Forall (fun c => forall n, c <> EvaluateHandle n) rest
      /\ List.length (filter is_lookup rest) <= 1)
  /\ (forall c1 rid1 content1 c2 rid2 content2,
         In (SendMessage c1 rid1 content1)
            (calls (trace_of (sendMessageAsClient env cli room messages w))) ->
         In (SendMessage c2 rid2 content2)
            (calls (trace_of (sendMessageAsClient env cli room messages w))) ->
         rid1 = rid2).
Proof.
  destruct (sendMessageAsClient_shape env cli room messages w)
    as (handle & rid & Hp & _ & _). cbv zeta in Hp.
  split.
  - assert (Hne : calls (trace_of (sendMessageAsClient env cli room messages w)) <> []).
    { rewrite sendMessageAsClient_eq.
      destruct (client_getRooms env w) as [[rooms | e] w1]; [|discriminate].
      cbv zeta. destruct (perform env _ w1) as [[[] | e] w2]; [|discriminate].
      destruct (roomIdPageFunction _); discriminate. }
    apply prefix_cons_inv in Hp. destruct Hp as [H | (rest & -> & Hp)]; [congruence|].
    exists rest. split; [reflexivity|].
    apply prefix_cons_inv in Hp. destruct Hp as [-> | (l2 & -> & Hp)].
    + split; [constructor | simpl; lia].
    + pose proof (prefix_Forall Hp (sendScript_no_lookup cli rid messages)) as Hl.
      split.
      * constructor; [discriminate|].
        eapply Forall_impl; [|exact Hl]. intros c Hc n ->. discriminate.
      * simpl. assert (Hf : filter is_lookup l2 = []).
        { clear -Hl. induction Hl as [|c l Hc _ IH]; simpl; [reflexivity|].
          now rewrite Hc. }
        rewrite Hf. simpl. lia.
  - intros c1 rid1 content1 c2 rid2 content2 H1 H2.
    apply (@prefix_In _ _ _ _ Hp) in H1. apply (@prefix_In _ _ _ _ Hp) in H2.
    destruct H1 as [H1 | [H1 | H1]]; try discriminate.
    destruct H2 as [H2 | [H2 | H2]]; try discriminate.
    apply in_sendScript in H1. apply in_sendScript in H2.
    destruct H1 as (_ & -> & _). destruct H2 as (_ & -> & _). reflexivity.
Qed.

(** ** Assertions fail fast *)

Section FailFast.

Variable env : Env.

Lemma checks_hold_run (before : list Call) (w : World env) :
  checks_hold env w before ->
  result_of (perform_all before w) = Ok tt
  /\ world_of (perform_all before w) = world_after env w before
  /\ trace_of (perform_all before w) = settled before.
Proof.
  revert w. induction before as [|c cs IH]; intros w H.
  - repeat split.
  - simpl in H. destruct H as [Hc Hrest]. rewrite perform_all_cons.
    change (world_after env w (c :: cs))
      with (world_after env (snd (perform env c w)) cs).
    destruct (perform env c w) as [[[] | e] w1]; simpl in *; [|discriminate].
    destruct (IH w1 Hrest) as (Hr & Hw & Ht).
    unfold result_of at 1, world_of at 1, trace_of at 1. simpl.
    rewrite Hr, Hw, Ht. repeat split.
Qed.

Lemma first_rejection (before : list Call) (c : Call) (after : list Call)
    (e : Error) (w : World env) :
  checks_hold env w before ->
  fst (perform env c (world_after env w before)) = Throw e ->
  result_of (perform_all (before ++ c :: after) w) = Throw e
  /\ calls (trace_of (perform_all (before ++ c :: after) w)) = before ++ [c].
Proof.
  intros Hb Hc. destruct (checks_hold_run before w Hb) as (Hr & Hw & Ht).
  rewrite perform_all_app. unfold bind.
  unfold result_of, world_of, trace_of in *.
  destruct (perform_all before w) as [[r w1] t1]; simpl in *. subst r w1 t1.
  rewrite perform_all_cons.
  destruct (perform env c (world_after env w before)) as [[[] | e'] w2];
    simpl in *; [discriminate|].
  injection Hc as ->. split; [reflexivity|].
  rewrite calls_app, calls_settled. reflexivity.
Qed.

(** [assertPinnedMessagesList] stops at its first assertion that fails:
    when the assertions before one hold and that one is rejected, the helper
    is rejected with that assertion's error and the assertions after it are
    never evaluated. *)
Theorem first_failed_assertion_is_reported (messages : list string)
    (before : list Call) (c : Call) (after : list Call) (e : Error) (w : World env) :
  headingCheck messages :: screenshotCheck messages :: countCheck messages
    :: map visibleCheck messages = before ++ c :: after ->
  checks_hold env w before ->
  fst (perform env c (world_after env w before)) = Throw e ->
  result_of (assertPinnedMessagesList env messages w) = Throw e
  /\ calls (trace_of (assertPinnedMessagesList env messages w)) = before ++ [c].
Proof.
  intros Hsplit Hb Hc. rewrite assertPinnedMessagesList_script.
  unfold assertListScript. rewrite Hsplit. apply first_rejection; assumption.
Qed.

End FailFast.

(** A screenshot that differs: the heading was checked, the count and the
    messages never are. *)
Lemma first_failed_assertion_witness :
  result_of (assertPinnedMessagesList (scriptedEnv demoRooms screenshotMismatch)
               ["Msg1"; "Msg2"] [])
  = Throw (FrameworkError "Screenshot comparison failed")
  /\ calls (trace_of (assertPinnedMessagesList (scriptedEnv demoRooms screenshotMismatch)
                        ["Msg1"; "Msg2"] []))
     = [headingCheck ["Msg1"; "Msg2"]; screenshotCheck ["Msg1"; "Msg2"]].
Proof.
  apply (@first_failed_assertion_is_reported (scriptedEnv demoRooms screenshotMismatch)
           ["Msg1"; "Msg2"] [headingCheck ["Msg1"; "Msg2"]]
           (screenshotCheck ["Msg1"; "Msg2"])
           (countCheck ["Msg1"; "Msg2"] :: map visibleCheck ["Msg1"; "Msg2"])
           (FrameworkError "Screenshot comparison failed") []).
  - reflexivity.
  - simpl. split; [reflexivity | exact I].
  - reflexivity.
Defined.

(** ** Where a run of [pinMessages] stops *)

Lemma pinScript_split (messages : list string) (cs1 : list Call) (c : Call)
    (cs2 : list Call) :
  pinScript messages = cs1 ++ c :: cs2 ->
  exists pinned m rest,
    messages = pinned ++ m :: rest /\
    ((cs1 = pinScript pinned /\ c = contextClick m)
     \/ (cs1 = pinScript pinned ++ [contextClick m] /\ c = pinItemClick)).
Proof.
  revert cs1. induction messages as [|m ms IH]; intros cs1 H.
  - destruct cs1; discriminate.
  - simpl in H. destruct cs1 as [|x cs1]; simpl in H.
    + injection H as <- _. exists [], m, ms. split; [reflexivity|]. left. split; reflexivity.
    + injection H as <- H. destruct cs1 as [|y cs1]; simpl in H.
      * injection H as <- _. exists [], m, ms. split; [reflexivity|]. right.
        split; reflexivity.
      * injection H as <- H. destruct (IH cs1 H) as (pinned & m' & rest & -> & Hcase).
        exists (m :: pinned), m', rest. split; [reflexivity|].
        destruct Hcase as [[-> ->] | [-> ->]]; [left | right]; split; reflexivity.
Qed.

(** [pinMessages] pins down the list and stops at the first click that is
    rejected: either it is fulfilled and has made the two clicks of every
    message in order, or it is rejected and the messages split into those
    fully pinned, the one whose context click or whose "Pin" click was
    rejected, and the rest, which it never touched. *)
Theorem pinMessages_pins_an_initial_segment (env : Env) (messages : list string)
    (w : World env) :
  (result_of (pinMessages env messages w) = Ok tt
   /\ calls (trace_of (pinMessages env messages w))
      = flat_map (fun m => [contextClick m; pinItemClick]) messages)
  \/ (exists pinned m rest e,
         messages = pinned ++ m :: rest
         /\ result_of (pinMessages env messages w) = Throw e
         /\ (calls (trace_of (pinMessages env messages w))
             = flat_map (fun m => [contextClick m; pinItemClick]) pinned
                 ++ [contextClick m]
             \/ calls (trace_of (pinMessages env messages w))
                = flat_map (fun m => [contextClick m; pinItemClick]) pinned
                    ++ [contextClick m; pinItemClick])).
Proof.
  rewrite pinMessages_script.
  destruct (perform_all_run env (pinScript messages) w)
    as [[Hr Ht] | (cs1 & c & cs2 & e & Hcs & Hr & Ht)]; rewrite Ht.
  - left. rewrite calls_settled. split; [exact Hr | reflexivity].
  - right. rewrite calls_rejected.
    destruct (pinScript_split _ _ _ _ Hcs) as (pinned & m & rest & Hm & Hcase).
    exists pinned, m, rest, e. split; [exact Hm|]. split; [exact Hr|].
    destruct Hcase as [[-> ->] | [-> ->]]; [left | right].
    + reflexivity.
    + rewrite <- app_assoc. reflexivity.
Qed.

(** ** The expected count text *)

Lemma numberToString_injective (n m : N) :
  numberToString n = numberToString m -> n = m.
Proof.
  unfold numberToString. intros H.
  assert (Hu : Some (N.to_uint n) = Some (N.to_uint m)).
  { rewrite <- !NilEmpty.usu. now rewrite H. }
  injection Hu as Hu.
  rewrite <- (DecimalN.Unsigned.of_to n), <- (DecimalN.Unsigned.of_to m).
  now rewrite Hu.
Qed.

(** The text [assertPinnedCountInRoomInfo] expects tells the counts apart:
    for two different counts the helper makes different calls, so an item
    showing one count cannot pass the assertion of another through the
    expected text. *)
Theorem expected_count_text_determines_count (env : Env) (n m : SafeInteger)
    (w w' : World env) :
  safe_value n <> safe_value m ->
  calls (trace_of (assertPinnedCountInRoomInfo env n w))
  <> calls (trace_of (assertPinnedCountInRoomInfo env m w')).
Proof.
  intros Hne. unfold assertPinnedCountInRoomInfo, call, await, trace_of.
  destruct (perform env _ w) as [[[] | e] w1];
    destruct (perform env _ w') as [[[] | e'] w1']; simpl; intros H;
    injection H as H; apply Hne, numberToString_injective; exact H.
Qed.

Lemma expected_count_text_witness :
  calls (trace_of (assertPinnedCountInRoomInfo (scriptedEnv demoRooms neverFails)
                     count_of_1 []))
  <> calls (trace_of (assertPinnedCountInRoomInfo (scriptedEnv demoRooms neverFails)
                        count_of_10 [])).
Proof.
  apply (@expected_count_text_determines_count (scriptedEnv demoRooms neverFails)
           count_of_1 count_of_10 [] []). discriminate.
Defined.

(** ** When an operation resolves *)

(** An operation other than [receiveMessages] is fulfilled exactly when the
    calls of its script are fulfilled one after the other; and when the
    calls before one are fulfilled and that one is rejected, the operation
    is rejected with its error, has made no call after it and leaves the
    world as that call left it. *)
Theorem operation_resolves_iff_every_call_does (env : Env) (op : Operation)
    (handle : option Room) (rid : string) (w : World env) :
  (forall room messages, op <> OpReceiveMessages room messages) ->
  (result_of (run_operation env op w) = Ok tt
   <-> checks_hold env w (operation_script op handle rid))
  /\ (forall before c after e,
         operation_script op handle rid = before ++ c :: after ->
         checks_hold env w before ->
         fst (perform env c (world_after env w before)) = Throw e ->
         result_of (run_operation env op w) = Throw e
         /\ calls (trace_of (run_operation env op w)) = before ++ [c]).
Proof.
  intros Hop.
  destruct (operation_is_script env op w) as [(room & messages & ->) | H].
  { exfalso. eapply Hop. reflexivity. }
  rewrite (H handle rid). split.
  - apply perform_all_ok_iff.
  - intros before c after e Hsplit Hb Hc. rewrite Hsplit.
    apply first_rejection; assumption.
Qed.

(** Opening the unpin-all dialog when the pinned-messages item cannot be
    clicked: the room info was opened, "Unpin all" is never clicked. *)
Lemma operation_resolves_witness :
  result_of (openUnpinAllDialog (scriptedEnv demoRooms pinnedListClickFails) [])
  = Throw (FrameworkError "Timeout 30000ms exceeded")
  /\ calls (trace_of (openUnpinAllDialog (scriptedEnv demoRooms pinnedListClickFails) []))
     = [Click (Nth (GetByRole ThePage "button" (Some "Room info")) 1) LeftButton;
        Click (GetByRole ThePage "menuitem" (Some "Pinned messages")) LeftButton].
Proof.
  assert (Hop : forall room messages,
             OpOpenUnpinAllDialog <> OpReceiveMessages room messages)
    by (intros room messages; discriminate).
  apply (proj2 (@operation_resolves_iff_every_call_does
                  (scriptedEnv demoRooms pinnedListClickFails) OpOpenUnpinAllDialog
                  None "" [] Hop)
           [Click (Nth (GetByRole ThePage "button" (Some "Room info")) 1) LeftButton]
           (Click (GetByRole ThePage "menuitem" (Some "Pinned messages")) LeftButton)
           [Click (GetByRole ThePage "button" (Some "Unpin all")) LeftButton]
           (FrameworkError "Timeout 30000ms exceeded")).
  - reflexivity.
  - simpl. split; [reflexivity | exact I].
  - reflexivity.
Defined.



(** The first and the last of three messages go to the same room. *)
Lemma room_resolved_once_witness : "!one:localhost" = "!one:localhost".
Proof.
  apply (proj2 (room_resolved_once (scriptedEnv demoRooms neverFails) BotClient
                  (RoomString "Room 1") ["Msg1"; "Msg2"; "Msg3"] [])
           BotClient "!one:localhost" (textMessage "Msg1")
           BotClient "!one:localhost" (textMessage "Msg3")).
  - simpl. right. right. left. reflexivity.
  - simpl. do 6 right. left. reflexivity.
Defined.

(** * Further properties of the factory *)

Module MemberListMore.
Import MemberList.

Lemma canInviteMapper_total (ctx : Context) (room : option (MatrixRoom ctx)) :
  canInviteMapper ctx room tt
  = Ok (match room with Some r => canInviteToRoom ctx r | None => false end).
Proof. destruct room; reflexivity. Qed.

(** With the state of [useEventEmitterState] being its mapper's value, the
    factory yields a view model for every room id: built from what
    [canInviteTo] and [isSpaceRoom] say of the room when the client has it,
    from [false] and [false] when it has not, and in both cases from a
    member service for the room id asked for. *)
Theorem factory_view_model_for_every_room (ctx : Context) (roomId : string) :
  state_is_mapped ctx ->
  useMemberListViewModelFactory ctx roomId
  = Ok (useMemberListViewModel ctx
          (match getRoom ctx (useMatrixClientContext ctx) roomId with
           | Some r => canInviteToRoom ctx r
           | None => false
           end)
          (match getRoom ctx (useMatrixClientContext ctx) roomId with
           | Some r => isSpaceRoom ctx r
           | None => false
           end)
          {| service_roomId := roomId;
             service_client := useMatrixClientContext ctx;
             service_store := memberListStore ctx |}).
Proof.
  intros Hstate. unfold useMemberListViewModelFactory. cbv zeta.
  rewrite Hstate, canInviteMapper_total.
  destruct (getRoom ctx (useMatrixClientContext ctx) roomId); reflexivity.
Qed.

Lemma factory_view_model_witness :
  useMemberListViewModelFactory oneRoomContext "!space:localhost"
  = Ok (true, true,
        {| service_roomId := "!space:localhost";
           service_client := tt;
           service_store := tt |}).
Proof.
  exact (@factory_view_model_for_every_room oneRoomContext "!space:localhost"
           (fun _ _ _ => eq_refl)).
Defined.

End MemberListMore.
